(** * asyncmongo: the per-connection state machine of [connection.py]

    A shallow embedding of [asyncmongo.connection.Connection].  The object's
    private attributes become the fields of a record, every method becomes a
    computation in a small state-and-exception monad, and every call that
    leaves the object (socket, stream, timers, pool, logging, the pending
    completion) is appended to a chronological trace of events.

    Modelling conventions:
    - a Python exception that escapes a method is the [Raise] outcome; the
      attribute writes made before the [raise] stay in the returned state,
      as they do in Python;
    - whether an I/O call raises is decided by the environment, as a function
      of the history of events up to and including the attempted call;
    - a caller's completion is an opaque callable that returns normally; the
      two completions of the class itself ([_start_authentication],
      [_finish_authentication]) are run when they are invoked;
    - callables, exception instances and message tuples are truthy, [None]
      is falsy, so [if self.__callback:] is a test for [Some];
    - [self.__request_id] is not created by [__init__]: [has_request_id]
      records whether the attribute exists, and reading it while it does
      not raises [AttributeError];
    - times are abstract integer ticks and numeric document values are
      integers (the code compares them with [1] and tests truthiness only). *)

From Stdlib Require Import ZArith List String Bool Lia.
From Stdlib Require Import Strings.Byte.
Import ListNotations.
Local Open Scope string_scope.
Local Open Scope list_scope.
Local Open Scope Z_scope.

(** ** Data *)

Definition bytes := list byte.

(** A value held in a document. *)
Inductive Value :=
| VNone
| VBool (b : bool)
| VInt (z : Z)
| VStr (s : string).

(** Python truthiness of a value. *)
Definition truthy (v : Value) : bool :=
  match v with
  | VNone => false
  | VBool b => b
  | VInt z => negb (z =? 0)
  | VStr s => negb (String.eqb s "")
  end.

(** [v != 1] in Python ([True == 1] holds). *)
Definition value_ne_1 (v : Value) : bool :=
  match v with
  | VInt z => negb (z =? 1)
  | VBool b => negb b
  | _ => true
  end.

(** [SON] and decoded documents: ordered key/value pairs. *)
Definition Document := list (string * Value).

Fixpoint doc_get (k : string) (d : Document) : option Value :=
  match d with
  | [] => None
  | (k', v) :: d' => if String.eqb k k' then Some v else doc_get k d'
  end.

(** [d.get(k)] followed by a truthiness test. *)
Definition get_truthy (k : string) (d : Document) : bool :=
  match doc_get k d with
  | Some v => truthy v
  | None => false
  end.

(** What [helpers._unpack_response] returns (the keys this module reads). *)
Record Response := mkResponse {
  number_returned : Z;
  data : list Document
}.

(** A message as built by [message.query]: [(request_id, data)]. *)
Definition Message := (Z * bytes)%type.

(** The completions that can be stored in [self.__callback]. *)
Inductive Callback :=
| UserCallback (k : nat)
| StartAuthentication
| FinishAuthentication.

(** The continuations handed to [stream.read]. *)
Inductive ReadCallback :=
| ParseHeader
| ParseResponse.

Inductive Backend :=
| ASYNC_BACKEND_TORNADO
| ASYNC_BACKEND_GLIB2
| ASYNC_BACKEND_GLIB3.

Definition is_tornado (b : Backend) : bool :=
  match b with ASYNC_BACKEND_TORNADO => true | _ => false end.

(** Exceptions, with the argument they are constructed from. *)
Inductive Exn :=
| SocketError (errno : Z)
| IOError (errno : Z)
| AssertionError
| AttributeError
| TypeError
| IndexError
| KeyError (key : string)
| StructError
| DecodeError (tag : nat)
| ProgrammingError (msg : string)
| InterfaceError (arg : Payload)
| AuthenticationError (arg : Payload)
| IntegrityError (err code : Value)
with Payload :=
| PStr (s : string)
| PVal (v : Value)
| PExn (e : Exn).

(** The Python class name of an exception. *)
Definition exn_class (e : Exn) : string :=
  match e with
  | SocketError _ => "socket.error"
  | IOError _ => "IOError"
  | AssertionError => "AssertionError"
  | AttributeError => "AttributeError"
  | TypeError => "TypeError"
  | IndexError => "IndexError"
  | KeyError _ => "KeyError"
  | StructError => "struct.error"
  | DecodeError _ => "Exception"
  | ProgrammingError _ => "ProgrammingError"
  | InterfaceError _ => "InterfaceError"
  | AuthenticationError _ => "AuthenticationError"
  | IntegrityError _ _ => "IntegrityError"
  end.

(** [socket.error] is a subclass of [IOError]. *)
Definition is_IOError (e : Exn) : bool :=
  match e with
  | SocketError _ | IOError _ => true
  | _ => false
  end.

Definition is_socket_error (e : Exn) : bool :=
  match e with
  | SocketError _ => true
  | _ => false
  end.

(** Everything the connection does to its collaborators. *)
Inductive Event :=
| EvSocket
| EvSockConnect (host : string) (port : Z)
| EvRegisterStream
| EvStreamConnect (host : string) (port : Z)
| EvSetCloseCallback
| EvAddTimeout (deadline : Z)
| EvRemoveTimeout (handle : nat)
| EvWrite (payload : bytes)
| EvRead (n : Z) (k : ReadCallback)
| EvStreamClose
| EvCache
| EvLog
| EvInvoke (cb : Callback) (response : option Response) (error : option Exn).

Definition Trace := list Event.

(** The attributes of a [Connection]. *)
Record Connection := mkConnection {
  host : string;
  port : Z;
  dbuser : option string;
  dbpass : option string;
  stream : option nat;
  callback : option Callback;
  alive : bool;
  authenticate : bool;
  autoreconnect : bool;
  dbname : string;
  deferred_message : option Message;
  deferred_callback : option Callback;
  backend_class : Backend;
  usage_count : Z;
  request_timeout : Z;
  min_timeout : Z;
  timeout : option nat;
  start_time : Z;
  request_id : option Z;
  has_request_id : bool
}.

(** The collaborators: transport faults, clock, handles, and the functions
    of the modules [message] and [helpers] that [connection.py] calls;
    they live outside this file and are parameters here.  [message.query]
    is split into the request id it draws and the bytes it encodes. *)
Record Env := mkEnv {
  io_fault : Trace -> option Exn;
  time_time : Trace -> Z;
  new_handle : Trace -> nat;
  fresh_request_id : Trace -> Z;
  encode_query : Z -> Z -> string -> Z -> Z -> Document -> Document -> bytes;
  _unpack_response : bytes -> option Z -> Exn + Response;
  _auth_key : Value -> option string -> option string -> Value
}.

(** ** The state-and-exception monad *)

Record World := mkWorld {
  conn : Connection;
  trace : Trace
}.

Inductive Outcome (A : Type) :=
| Ok (a : A)
| Raise (e : Exn).
Arguments Ok {A} a.
Arguments Raise {A} e.

Definition M (A : Type) := World -> Outcome A * World.

Definition ret {A} (a : A) : M A := fun w => (Ok a, w).

Definition bind {A B} (m : M A) (f : A -> M B) : M B :=
  fun w =>
    match m w with
    | (Ok a, w') => f a w'
    | (Raise e, w') => (Raise e, w')
    end.

Definition raise {A} (e : Exn) : M A := fun w => (Raise e, w).

(** [try: m except <class>: h]. *)
Definition try_except {A} (m : M A) (catches : Exn -> bool) (h : Exn -> M A) : M A :=
  fun w =>
    match m w with
    | (Raise e, w') => if catches e then h e w' else (Raise e, w')
    | r => r
    end.

Definition get : M Connection := fun w => (Ok (conn w), w).

Definition modify (f : Connection -> Connection) : M unit :=
  fun w => (Ok tt, mkWorld (f (conn w)) (trace w)).

Definition history : M Trace := fun w => (Ok (trace w), w).

(** A call that cannot fail. *)
Definition emit (e : Event) : M unit :=
  fun w => (Ok tt, mkWorld (conn w) (trace w ++ [e])).

Declare Scope conn_scope.
Delimit Scope conn_scope with conn.
Notation "x <- m ;; k" := (bind m (fun x => k))
  (at level 61, m at next level, right associativity) : conn_scope.
Notation "m ;; k" := (bind m (fun _ => k))
  (at level 61, right associativity) : conn_scope.
Local Open Scope conn_scope.

(** Field updates. *)
Definition set_stream v c := mkConnection (host c) (port c) (dbuser c) (dbpass c) v (callback c) (alive c) (authenticate c) (autoreconnect c) (dbname c) (deferred_message c) (deferred_callback c) (backend_class c) (usage_count c) (request_timeout c) (min_timeout c) (timeout c) (start_time c) (request_id c) (has_request_id c).
Definition set_callback v c := mkConnection (host c) (port c) (dbuser c) (dbpass c) (stream c) v (alive c) (authenticate c) (autoreconnect c) (dbname c) (deferred_message c) (deferred_callback c) (backend_class c) (usage_count c) (request_timeout c) (min_timeout c) (timeout c) (start_time c) (request_id c) (has_request_id c).
Definition set_alive v c := mkConnection (host c) (port c) (dbuser c) (dbpass c) (stream c) (callback c) v (authenticate c) (autoreconnect c) (dbname c) (deferred_message c) (deferred_callback c) (backend_class c) (usage_count c) (request_timeout c) (min_timeout c) (timeout c) (start_time c) (request_id c) (has_request_id c).
Definition set_authenticate v c := mkConnection (host c) (port c) (dbuser c) (dbpass c) (stream c) (callback c) (alive c) v (autoreconnect c) (dbname c) (deferred_message c) (deferred_callback c) (backend_class c) (usage_count c) (request_timeout c) (min_timeout c) (timeout c) (start_time c) (request_id c) (has_request_id c).
Definition set_deferred_message v c := mkConnection (host c) (port c) (dbuser c) (dbpass c) (stream c) (callback c) (alive c) (authenticate c) (autoreconnect c) (dbname c) v (deferred_callback c) (backend_class c) (usage_count c) (request_timeout c) (min_timeout c) (timeout c) (start_time c) (request_id c) (has_request_id c).
Definition set_deferred_callback v c := mkConnection (host c) (port c) (dbuser c) (dbpass c) (stream c) (callback c) (alive c) (authenticate c) (autoreconnect c) (dbname c) (deferred_message c) v (backend_class c) (usage_count c) (request_timeout c) (min_timeout c) (timeout c) (start_time c) (request_id c) (has_request_id c).
Definition set_usage_count v c := mkConnection (host c) (port c) (dbuser c) (dbpass c) (stream c) (callback c) (alive c) (authenticate c) (autoreconnect c) (dbname c) (deferred_message c) (deferred_callback c) (backend_class c) v (request_timeout c) (min_timeout c) (timeout c) (start_time c) (request_id c) (has_request_id c).
Definition set_timeout v c := mkConnection (host c) (port c) (dbuser c) (dbpass c) (stream c) (callback c) (alive c) (authenticate c) (autoreconnect c) (dbname c) (deferred_message c) (deferred_callback c) (backend_class c) (usage_count c) (request_timeout c) (min_timeout c) v (start_time c) (request_id c) (has_request_id c).
Definition set_start_time v c := mkConnection (host c) (port c) (dbuser c) (dbpass c) (stream c) (callback c) (alive c) (authenticate c) (autoreconnect c) (dbname c) (deferred_message c) (deferred_callback c) (backend_class c) (usage_count c) (request_timeout c) (min_timeout c) (timeout c) v (request_id c) (has_request_id c).
Definition set_request_id v c := mkConnection (host c) (port c) (dbuser c) (dbpass c) (stream c) (callback c) (alive c) (authenticate c) (autoreconnect c) (dbname c) (deferred_message c) (deferred_callback c) (backend_class c) (usage_count c) (request_timeout c) (min_timeout c) (timeout c) (start_time c) v true.

(** ** The methods of [Connection] *)

Section Methods.

Variable env : Env.

(** A transport call that the environment may make raise. *)
Definition io (e : Event) : M unit :=
  fun w =>
    let tr := trace w ++ [e] in
    match io_fault env tr with
    | None => (Ok tt, mkWorld (conn w) tr)
    | Some x => (Raise x, mkWorld (conn w) tr)
    end.

(** A method call on [self.__stream], which is [None] before any connect. *)
Definition stream_call (e : Event) : M unit :=
  c <- get ;;
  match stream c with
  | None => raise AttributeError
  | Some _ => io e
  end.

(** [self.__stream.io_loop]: the loop is reached through the stream. *)
Definition io_loop : M unit :=
  c <- get ;;
  match stream c with
  | None => raise AttributeError
  | Some _ => ret tt
  end.

(** Reading [self.__request_id], which exists only once [_send_message]
    has assigned it. *)
Definition read_request_id : M (option Z) :=
  c <- get ;;
  if has_request_id c then ret (request_id c) else raise AttributeError.

(** [message.query(options, ns, skip, limit, query, fields)]: draws a
    request id and returns it with the encoded bytes. *)
Definition message_query (options : Z) (ns : string) (skip limit : Z)
    (query fields : Document) : M Message :=
  h <- history ;;
  let rid := fresh_request_id env h in
  ret (rid, encode_query env rid options ns skip limit query fields).

(** ["%s.$cmd" % self.__pool._dbname] *)
Definition cmd_namespace (c : Connection) : string :=
  String.append (dbname c) ".$cmd".

Definition str_value (o : option string) : Value :=
  match o with
  | Some s => VStr s
  | None => VNone
  end.

Definition getnonce_command : Document := [("getnonce", VInt 1)].

Definition authenticate_command (user nonce key : Value) : Document :=
  [("authenticate", VInt 1); ("user", user); ("nonce", nonce); ("key", key)].

(** [self.__dbuser and self.__dbpass] *)
Definition has_credentials (c : Connection) : bool :=
  match dbuser c, dbpass c with
  | Some u, Some p => negb (String.eqb u "") && negb (String.eqb p "")
  | _, _ => false
  end.

Definition __connect : M unit :=
  modify (set_usage_count 0) ;;
  try_except
    (h <- history ;;
     modify (set_start_time (time_time env h)) ;;
     io EvSocket ;;
     c <- get ;;
     (if is_tornado (backend_class c) then
        h1 <- history ;;
        emit EvRegisterStream ;;
        modify (set_stream (Some (new_handle env h1))) ;;
        (if negb (min_timeout c =? 0) then
           io_loop ;;
           h2 <- history ;;
           emit (EvAddTimeout (start_time c + min_timeout c)) ;;
           modify (set_timeout (Some (new_handle env h2)))
         else ret tt) ;;
        io (EvStreamConnect (host c) (port c))
      else
        io (EvSockConnect (host c) (port c)) ;;
        h1 <- history ;;
        emit EvRegisterStream ;;
        modify (set_stream (Some (new_handle env h1)))) ;;
     emit EvSetCloseCallback ;;
     modify (set_alive true))
    is_socket_error
    (fun error => raise (InterfaceError (PExn error))) ;;
  c <- get ;;
  if has_credentials c then modify (set_authenticate true) else ret tt.

Definition _send_message (message : option Message) : M unit :=
  modify (fun c => set_usage_count (usage_count c + 1) c) ;;
  match message with
  | None => raise TypeError
  | Some (rid, payload) =>
      modify (set_request_id (Some rid)) ;;
      try_except
        (stream_call (EvWrite payload) ;;
         c <- get ;;
         match callback c with
         | Some _ => stream_call (EvRead 16 ParseHeader)
         | None => modify (set_request_id None) ;; emit EvCache
         end)
        is_IOError
        (fun e => modify (set_alive false) ;; raise e)
  end.

Definition clear_deferred : M unit :=
  modify (set_deferred_message None) ;;
  modify (set_deferred_callback None).

Definition _finish_authentication (response : option Response)
    (error : option Exn) : M unit :=
  match error with
  | Some e => clear_deferred ;; raise (AuthenticationError (PExn e))
  | None =>
      match response with
      | None => raise TypeError
      | Some r =>
          if negb (number_returned r =? 1) then raise AssertionError
          else
            match data r with
            | [] => raise IndexError
            | d :: _ =>
                match doc_get "ok" d with
                | None => raise (KeyError "ok")
                | Some ok =>
                    if value_ne_1 ok then
                      match doc_get "errmsg" d with
                      | None => raise (KeyError "errmsg")
                      | Some errmsg =>
                          emit EvLog ;;
                          clear_deferred ;;
                          raise (AuthenticationError (PVal errmsg))
                      end
                    else
                      c <- get ;;
                      clear_deferred ;;
                      modify (set_callback (deferred_callback c)) ;;
                      _send_message (deferred_message c)
                end
            end
      end
  end.

Definition _start_authentication (response : option Response)
    (error : option Exn) : M unit :=
  match error with
  | Some e => emit EvLog ;; emit EvLog ;; raise (AuthenticationError (PExn e))
  | None =>
      match response with
      | None => raise TypeError
      | Some r =>
          match data r with
          | [] => raise IndexError
          | d :: _ =>
              match doc_get "nonce" d with
              | None => raise (KeyError "nonce")
              | Some nonce =>
                  c <- get ;;
                  let key := _auth_key env nonce (dbuser c) (dbpass c) in
                  modify (set_callback (Some FinishAuthentication)) ;;
                  m <- message_query 0 (cmd_namespace c) 0 1
                         (authenticate_command (str_value (dbuser c)) nonce key) [] ;;
                  _send_message (Some m)
              end
          end
      end
  end.

(** Calling the stored completion: [callback(response, error)]. *)
Definition invoke (cb : Callback) (response : option Response)
    (error : option Exn) : M unit :=
  emit (EvInvoke cb response error) ;;
  match cb with
  | UserCallback _ => ret tt
  | StartAuthentication => _start_authentication response error
  | FinishAuthentication => _finish_authentication response error
  end.

Definition connection_closed : Exn := InterfaceError (PStr "connection closed").

Definition notify_closed : M unit :=
  c <- get ;;
  match callback c with
  | Some cb => invoke cb None (Some connection_closed)
  | None => ret tt
  end.

Definition _socket_close : M unit :=
  notify_closed ;;
  modify (set_callback None) ;;
  modify (set_alive false) ;;
  emit EvCache.

Definition _close : M unit :=
  notify_closed ;;
  modify (set_callback None) ;;
  modify (set_alive false) ;;
  stream_call EvStreamClose.

Definition close : M unit :=
  _close ;;
  emit EvCache.

Definition _on_timeout : M unit :=
  modify (set_timeout None) ;;
  close.

Definition _on_connect : M unit :=
  c <- get ;;
  match timeout c with
  | Some t => io_loop ;; emit (EvRemoveTimeout t) ;; modify (set_timeout None)
  | None => ret tt
  end ;;
  if negb (request_timeout c =? 0) then
    io_loop ;;
    h <- history ;;
    emit (EvAddTimeout (start_time c + request_timeout c)) ;;
    modify (set_timeout (Some (new_handle env h)))
  else ret tt.

Definition _get_nonce (cb : Callback) : M unit :=
  c <- get ;;
  match callback c with
  | Some _ => raise AssertionError
  | None =>
      modify (set_callback (Some cb)) ;;
      m <- message_query 0 (cmd_namespace c) 0 1 getnonce_command [] ;;
      _send_message (Some m)
  end.

Definition send_message (message : Message) (cb : option Callback) : M unit :=
  c <- get ;;
  match callback c with
  | Some _ => raise (ProgrammingError "connection already in use")
  | None =>
      (if negb (alive c) then
         if autoreconnect c then __connect
         else raise (InterfaceError (PStr "connection invalid. autoreconnect=False"))
       else ret tt) ;;
      c1 <- get ;;
      if authenticate c1 then
        modify (set_deferred_message (Some message)) ;;
        modify (set_deferred_callback cb) ;;
        _get_nonce StartAuthentication
      else
        modify (set_callback cb) ;;
        _send_message (Some message)
  end.

(** [struct.unpack("<i", bs)[0]]: exactly four bytes, least significant
    first, read as a two's-complement 32-bit integer. *)
Definition byte_val (b : byte) : Z := Z.of_N (Byte.to_N b).

Definition unpack_le_i32 (bs : bytes) : option Z :=
  match bs with
  | [b0; b1; b2; b3] =>
      let u := byte_val b0 + 256 * byte_val b1
               + 65536 * byte_val b2 + 16777216 * byte_val b3 in
      Some (if u <? 2147483648 then u else u - 4294967296)
  | _ => None
  end.

Definition struct_unpack (bs : bytes) : M Z :=
  match unpack_le_i32 bs with
  | Some z => ret z
  | None => raise StructError
  end.

(** [a == self.__request_id], where the attribute may hold [None]. *)
Definition id_matches (a : Z) (rid : option Z) : bool :=
  match rid with
  | Some r => a =? r
  | None => false
  end.

Definition _parse_header (header : bytes) : M unit :=
  length <- struct_unpack (firstn 4 header) ;;
  request_id' <- struct_unpack (firstn 4 (skipn 8 header)) ;;
  stored <- read_request_id ;;
  if negb (id_matches request_id' stored) then raise AssertionError
  else
    let operation := 1 in
    op <- struct_unpack (skipn 12 header) ;;
    if negb (operation =? op) then raise AssertionError
    else
      try_except
        (stream_call (EvRead (length - 16) ParseResponse))
        is_IOError
        (fun e => modify (set_alive false) ;; raise e).

(** The test that selects the [IntegrityError] branch. *)
Definition reports_error (r : Response) : bool :=
  match data r with
  | [] => false
  | d :: _ => get_truthy "err" d && get_truthy "code" d
  end.

Definition first_field (k : string) (r : Response) : Value :=
  match data r with
  | d :: _ => match doc_get k d with Some v => v | None => VNone end
  | [] => VNone
  end.

Definition _parse_response (response : bytes) : M unit :=
  c <- get ;;
  match callback c with
  | None => ret tt
  | Some cb =>
      request_id' <- read_request_id ;;
      modify (set_request_id None) ;;
      modify (set_callback None) ;;
      match deferred_message c with
      | None => emit EvCache
      | Some _ => ret tt
      end ;;
      match _unpack_response env response request_id' with
      | inl e => emit EvLog ;; invoke cb None (Some e)
      | inr r =>
          if reports_error r then
            invoke cb (Some r)
              (Some (IntegrityError (first_field "err" r) (first_field "code" r)))
          else invoke cb (Some r) None
      end
  end.

(** [Connection(host, port, ...)]: the attribute defaults, then a connect. *)
Definition initial (host' : string) (port' : Z) (connect_timeout request_timeout' : Z)
    (dbuser' dbpass' : option string) (autoreconnect' : bool) (dbname' : string)
    (backend : Backend) (now : Z) : Connection :=
  mkConnection host' port' dbuser' dbpass' None None false false autoreconnect'
    dbname' None None backend 0 request_timeout'
    (Z.min connect_timeout request_timeout') None now None false.

Definition __init__ (host' : string) (port' : Z) (connect_timeout request_timeout' : Z)
    (dbuser' dbpass' : option string) (autoreconnect' : bool) (dbname' : string)
    (backend : Backend) : Outcome unit * World :=
  __connect (mkWorld (initial host' port' connect_timeout request_timeout'
                        dbuser' dbpass' autoreconnect' dbname' backend
                        (time_time env [])) []).

End Methods.

(** ** Reading a trace *)

Fixpoint writes (tr : Trace) : list bytes :=
  match tr with
  | [] => []
  | EvWrite p :: tr' => p :: writes tr'
  | _ :: tr' => writes tr'
  end.

Fixpoint reads (tr : Trace) : list (Z * ReadCallback) :=
  match tr with
  | [] => []
  | EvRead n k :: tr' => (n, k) :: reads tr'
  | _ :: tr' => reads tr'
  end.

Fixpoint invocations (tr : Trace) : list (Callback * option Response * option Exn) :=
  match tr with
  | [] => []
  | EvInvoke cb r e :: tr' => (cb, r, e) :: invocations tr'
  | _ :: tr' => invocations tr'
  end.

Fixpoint sockets_opened (tr : Trace) : nat :=
  match tr with
  | [] => O
  | EvSocket :: tr' => S (sockets_opened tr')
  | _ :: tr' => sockets_opened tr'
  end.

(** The reply header a peer sends: total length, its own id, the id it
    answers, the opcode. *)
Definition byte_of_Z (z : Z) : byte :=
  match Byte.of_N (Z.to_N (z mod 256)) with
  | Some b => b
  | None => x00
  end.

Definition pack_le_i32 (z : Z) : bytes :=
  let u := z mod 4294967296 in
  [byte_of_Z u; byte_of_Z (u / 256); byte_of_Z (u / 65536); byte_of_Z (u / 16777216)].

Definition reply_header (len own_id response_to opcode : Z) : bytes :=
  pack_le_i32 len ++ pack_le_i32 own_id ++ pack_le_i32 response_to ++ pack_le_i32 opcode.

(** ** Driving the connection *)

(** One reply as the event loop hands it over: the 16 header bytes go to
    [_parse_header], then the body goes to [_parse_response]. *)
Definition deliver (env : Env) (header body : bytes) : M unit :=
  _parse_header env header ;; _parse_response env body.

Definition after {A} (m : M A) (w : World) : World := snd (m w).

(** The events a computation added to the trace. *)
Definition added (w w' : World) : Trace := skipn (List.length (trace w)) (trace w').

(** [_parse_header] accepts this header on this connection. *)
Definition header_accepted (header : bytes) (c : Connection) : bool :=
  (List.length header =? 16)%nat
  && has_request_id c
  && match unpack_le_i32 (firstn 4 (skipn 8 header)), unpack_le_i32 (skipn 12 header) with
     | Some rid, Some op => id_matches rid (request_id c) && (op =? 1)
     | _, _ => false
     end.

Definition header_length (header : bytes) : Z :=
  match unpack_le_i32 (firstn 4 header) with
  | Some len => len
  | None => 0
  end.

(** [response['data'][0]['nonce']] *)
Definition nonce_of (r : Response) : option Value :=
  match data r with
  | d :: _ => doc_get "nonce" d
  | [] => None
  end.

(** The reply passes both the count assertion and the [ok] test of
    [_finish_authentication]. *)
Definition auth_accepted (r : Response) : bool :=
  (number_returned r =? 1)
  && match data r with
     | d :: _ =>
         match doc_get "ok" d with
         | Some ok => negb (value_ne_1 ok)
         | None => false
         end
     | [] => false
     end.

(** How many requests went out before [payload] did. *)
Fixpoint sent_before (payload : bytes) (ws : list bytes) : nat :=
  match ws with
  | [] => O
  | p :: ws' =>
      if list_eq_dec Byte.byte_eq_dec p payload then O
      else S (sent_before payload ws')
  end.

(** ** A scripted peer, for examples *)

Definition sample_encode (rid options : Z) (ns : string) (skip limit : Z)
    (query fields : Document) : bytes :=
  match query with
  | (k, _) :: _ => list_byte_of_string k
  | [] => []
  end.

(** An empty body does not decode; a body starting with ['!'] decodes to a
    server-reported failure; any other body to a nonce-and-ok document. *)
Definition sample_decode (body : bytes) (rid : option Z) : Exn + Response :=
  match body with
  | [] => inl (DecodeError 0)
  | x21 :: _ => inr (mkResponse 1 [[("err", VStr "E"); ("code", VInt 11000)]])
  | _ => inr (mkResponse 1 [[("nonce", VStr "abc"); ("ok", VInt 1)]])
  end.

Definition error_body : bytes := list_byte_of_string "!dup".

(** Nothing fails; request ids count the events so far. *)
Definition sample_env : Env :=
  mkEnv (fun _ => None) (fun _ => 0) (fun tr => List.length tr)
        (fun tr => Z.of_nat (List.length tr)) sample_encode sample_decode
        (fun _ _ _ => VStr "key").

(** Every [socket.socket()] is refused with errno 111. *)
Definition refusing_env : Env :=
  mkEnv (fun tr => match rev tr with
                   | EvSocket :: _ => Some (SocketError 111)
                   | _ => None
                   end)
        (fun _ => 0) (fun tr => List.length tr)
        (fun tr => Z.of_nat (List.length tr)) sample_encode sample_decode
        (fun _ _ _ => VStr "key").

Definition some_body : bytes := list_byte_of_string "reply".

Definition find_message : Message := (1000, list_byte_of_string "find").

Definition count_message : Message := (1001, list_byte_of_string "count").

(** The peer answers the request in flight with a 36-byte reply. *)
Definition echo_header (w : World) : bytes :=
  reply_header 36 0 (match request_id (conn w) with Some r => r | None => 0 end) 1.

(** A connection without credentials, and one with, both just connected. *)
Definition plain_world : World :=
  snd (__init__ sample_env "localhost" 27017 20 20 None None true "test"
         ASYNC_BACKEND_TORNADO).

Definition fresh_world : World :=
  snd (__init__ sample_env "localhost" 27017 20 20 (Some "user") (Some "secret")
         true "test" ASYNC_BACKEND_TORNADO).

(** The credentialed connection through one complete request. *)
Definition nonce_pending : World :=
  after (send_message sample_env find_message (Some (UserCallback 1))) fresh_world.

Definition auth_pending : World :=
  after (deliver sample_env (echo_header nonce_pending) some_body) nonce_pending.

Definition find_pending : World :=
  after (deliver sample_env (echo_header auth_pending) some_body) auth_pending.

Definition find_done : World :=
  after (deliver sample_env (echo_header find_pending) some_body) find_pending.

(** The same connection through a second request. *)
Definition second_sent : World :=
  after (send_message sample_env count_message (Some (UserCallback 2))) find_done.

Definition second_auth : World :=
  after (deliver sample_env (echo_header second_sent) some_body) second_sent.

Definition second_done : World :=
  after (deliver sample_env (echo_header second_auth) some_body) second_auth.

Definition sample_reply : Response :=
  mkResponse 1 [[("nonce", VStr "abc"); ("ok", VInt 1)]].

(** ** Relations between the world before and after a step *)

(** [stable R m]: running [m] takes any world to an [R]-related one,
    whether it returns or raises. *)
Definition stable (R : World -> World -> Prop) {A} (m : M A) : Prop :=
  forall w, R w (snd (m w)).

(** No completion was called. *)
Definition same_invocations (w w' : World) : Prop :=
  invocations (trace w') = invocations (trace w).

(** The authenticate flag, once raised, is still raised. *)
Definition flag_kept (w w' : World) : Prop :=
  authenticate (conn w) = true -> authenticate (conn w') = true.

(** ** The worlds the handshake goes through *)

(** The request stored by [send_message] and the getnonce command sent in
    its place. *)
Definition getnonce_sent (env : Env) (w : World) (message : Message) (cb : option Callback)
  : World :=
  let rid := fresh_request_id env (trace w) in
  mkWorld
    (set_request_id (Some rid)
       (set_usage_count (usage_count (conn w) + 1)
          (set_callback (Some StartAuthentication)
             (set_deferred_callback cb
                (set_deferred_message (Some message) (conn w))))))
    (trace w
     ++ [EvWrite (encode_query env rid 0 (cmd_namespace (conn w)) 0 1
                    getnonce_command []);
         EvRead 16 ParseHeader]).

(** The nonce reply, answered with the authenticate command. *)
Definition authenticate_sent (env : Env) (w : World) (header : bytes) (r : Response)
    (nonce : Value) : World :=
  let tr := trace w
            ++ [EvRead (header_length header - 16) ParseResponse;
                EvInvoke StartAuthentication (Some r) None] in
  let rid := fresh_request_id env tr in
  let key := _auth_key env nonce (dbuser (conn w)) (dbpass (conn w)) in
  mkWorld
    (set_request_id (Some rid)
       (set_usage_count (usage_count (conn w) + 1)
          (set_callback (Some FinishAuthentication) (conn w))))
    (tr ++ [EvWrite (encode_query env rid 0 (cmd_namespace (conn w)) 0 1
                       (authenticate_command (str_value (dbuser (conn w)))
                          nonce key) []);
            EvRead 16 ParseHeader]).

(** The authenticate reply, answered with the caller's own request. *)
Definition request_sent (w : World) (header : bytes) (r : Response)
    (message : Message) (cb : option Callback) : World :=
  let tr := trace w
            ++ [EvRead (header_length header - 16) ParseResponse;
                EvInvoke FinishAuthentication (Some r) None] in
  let c := set_usage_count (usage_count (conn w) + 1)
             (set_callback cb
                (set_deferred_callback None
                   (set_deferred_message None (conn w)))) in
  match cb with
  | Some _ =>
      mkWorld (set_request_id (Some (fst message)) c)
        (tr ++ [EvWrite (snd message); EvRead 16 ParseHeader])
  | None =>
      mkWorld (set_request_id None c)
        (tr ++ [EvWrite (snd message); EvCache])
  end.

(** ** More scripted peers and worlds *)


(** Submitting the body read raises [IOError] with errno 9. *)
Definition closed_stream_env : Env :=
  mkEnv (fun tr => match rev tr with
                   | EvRead _ ParseResponse :: _ => Some (IOError 9)
                   | _ => None
                   end)
        (fun _ => 0) (fun tr => List.length tr)
        (fun tr => Z.of_nat (List.length tr)) sample_encode sample_decode
        (fun _ _ _ => VStr "key").

(** A connection created with [autoreconnect=False], then closed. *)
Definition manual_world : World :=
  snd (__init__ sample_env "localhost" 27017 20 20 None None false "test"
         ASYNC_BACKEND_TORNADO).

Definition manual_closed : World := after (close sample_env) manual_world.

(** The plain connection, closed by its owner. *)
Definition plain_closed : World := after (close sample_env) plain_world.

(** The plain connection with a request in flight. *)
Definition plain_pending : World :=
  after (send_message sample_env find_message (Some (UserCallback 1))) plain_world.

(** A request whose id does not fit in 32 signed bits. *)
Definition wide_message : Message := (2147483648, list_byte_of_string "find").

Definition wide_pending : World :=
  after (send_message sample_env wide_message (Some (UserCallback 1))) plain_world.

(** A glib connection. *)
Definition glib_world : World :=
  mkWorld (initial "localhost" 27017 20 20 None None true "test"
             ASYNC_BACKEND_GLIB2 0) [].

(** Replies that the handshake does not accept. *)
Definition rejected_reply : Response :=
  mkResponse 1 [[("ok", VInt 0); ("errmsg", VStr "auth fails")]].

Definition empty_reply : Response := mkResponse 0 [].

(** A reply whose first document has an error text but a zero code. *)
Definition zero_code_reply : Response :=
  mkResponse 1 [[("err", VStr "E"); ("code", VInt 0)]].

(** A peer whose every reply decodes to [r]. *)
Definition decoding_env (r : Response) : Env :=
  mkEnv (fun _ => None) (fun _ => 0) (fun tr => List.length tr)
        (fun tr => Z.of_nat (List.length tr)) sample_encode
        (fun _ _ => inr r) (fun _ _ _ => VStr "key").

(** A connection created with a user name and an empty password. *)
Definition empty_password_world : World :=
  snd (__init__ sample_env "localhost" 27017 20 20 (Some "user") (Some "")
         true "test" ASYNC_BACKEND_TORNADO).

(** A fire-and-forget request on the credentialed connection. *)
Definition forget_sent : World :=
  after (send_message sample_env count_message None) find_done.

Definition forget_auth : World :=
  after (deliver sample_env (echo_header forget_sent) some_body) forget_sent.

Definition forget_done : World :=
  after (deliver sample_env (echo_header forget_auth) some_body) forget_auth.

(** Timer calls in a trace. *)
Fixpoint timer_calls (tr : Trace) : nat :=
  match tr with
  | [] => O
  | EvAddTimeout _ :: tr' => S (timer_calls tr')
  | EvRemoveTimeout _ :: tr' => S (timer_calls tr')
  | _ :: tr' => timer_calls tr'
  end.

(** A registered completion comes with a request id: either nothing is
    pending or [self.__request_id] exists. *)
Definition pending_has_id (c : Connection) : Prop :=
  callback c = None \/ has_request_id c = true.

(** The request id, once assigned, stays assigned. *)
Definition id_kept (w w' : World) : Prop :=
  has_request_id (conn w) = true -> has_request_id (conn w') = true.

(** No timer was added or removed. *)
Definition same_timers (w w' : World) : Prop :=
  timer_calls (trace w') = timer_calls (trace w).

Definition not_timer (e : Event) : Prop :=
  match e with
  | EvAddTimeout _ | EvRemoveTimeout _ => False
  | _ => True
  end.

(** Calls to [pool.cache] in a trace. *)
Fixpoint cache_calls (tr : Trace) : nat :=
  match tr with
  | [] => O
  | EvCache :: tr' => S (cache_calls tr')
  | _ :: tr' => cache_calls tr'
  end.

(** The world a successful [__connect] leaves, for either kind of backend. *)
Definition connected (env : Env) (w : World) : World :=
  let c := conn w in
  let now := time_time env (trace w) in
  let t1 := trace w ++ [EvSocket] in
  let flag := if has_credentials c then true else authenticate c in
  if is_tornado (backend_class c) then
    let armed := negb (min_timeout c =? 0) in
    let t2 := t1 ++ [EvRegisterStream] in
    let t3 := if armed then t2 ++ [EvAddTimeout (now + min_timeout c)] else t2 in
    mkWorld
      (set_authenticate flag
         (set_alive true
            (set_timeout (if armed then Some (new_handle env t2) else timeout c)
               (set_stream (Some (new_handle env t1))
                  (set_start_time now (set_usage_count 0 c))))))
      (t3 ++ [EvStreamConnect (host c) (port c); EvSetCloseCallback])
  else
    let t2 := t1 ++ [EvSockConnect (host c) (port c)] in
    mkWorld
      (set_authenticate flag
         (set_alive true
            (set_stream (Some (new_handle env t2))
               (set_start_time now (set_usage_count 0 c)))))
      (t2 ++ [EvRegisterStream; EvSetCloseCallback]).

(** ** Facts about traces and headers *)

Lemma writes_app (a b : Trace) : writes (a ++ b) = writes a ++ writes b.
Proof.
  induction a as [|e a IH]; simpl; [reflexivity|].
  destruct e; simpl; rewrite ?IH; reflexivity.
Qed.

Lemma reads_app (a b : Trace) : reads (a ++ b) = reads a ++ reads b.
Proof.
  induction a as [|e a IH]; simpl; [reflexivity|].
  destruct e; simpl; rewrite ?IH; reflexivity.
Qed.

Lemma invocations_app (a b : Trace) :
  invocations (a ++ b) = invocations a ++ invocations b.
Proof.
  induction a as [|e a IH]; simpl; [reflexivity|].
  destruct e; simpl; rewrite ?IH; reflexivity.
Qed.

Lemma sockets_opened_app (a b : Trace) :
  sockets_opened (a ++ b) = (sockets_opened a + sockets_opened b)%nat.
Proof.
  induction a as [|e a IH]; simpl; [reflexivity|].
  destruct e; simpl; rewrite ?IH; reflexivity.
Qed.

Example unpack_minus_one : unpack_le_i32 [xff; xff; xff; xff] = Some (-1).
Proof. reflexivity. Qed.

Example unpack_reply_opcode : unpack_le_i32 [x01; x00; x00; x00] = Some 1.
Proof. reflexivity. Qed.

Example unpack_short : unpack_le_i32 [x01; x00; x00] = None.
Proof. reflexivity. Qed.

Example header_fields :
  let h := reply_header 36 7 258 1 in
  (List.length h = 16%nat
   /\ unpack_le_i32 (firstn 4 h) = Some 36
   /\ unpack_le_i32 (firstn 4 (skipn 8 h)) = Some 258
   /\ unpack_le_i32 (skipn 12 h) = Some 1).
Proof. repeat split; reflexivity. Qed.

(** A 16-byte header always yields its three fields. *)
Lemma header_16_fields (header : bytes) :
  List.length header = 16%nat ->
  exists len rid op,
    unpack_le_i32 (firstn 4 header) = Some len
    /\ unpack_le_i32 (firstn 4 (skipn 8 header)) = Some rid
    /\ unpack_le_i32 (skipn 12 header) = Some op.
Proof.
  intro H.
  do 16 (destruct header as [|? header]; [discriminate H|]).
  destruct header; [|discriminate H].
  cbn [firstn skipn unpack_le_i32].
  do 3 eexists. repeat split; reflexivity.
Qed.

(** The unpacked field is a signed 32-bit integer. *)
Lemma byte_val_range (b : byte) : 0 <= byte_val b < 256.
Proof.
  unfold byte_val. pose proof (Byte.to_N_bounded b) as H. lia.
Qed.

Lemma unpack_le_i32_range (bs : bytes) (z : Z) :
  unpack_le_i32 bs = Some z -> - 2147483648 <= z < 2147483648.
Proof.
  destruct bs as [|b0 [|b1 [|b2 [|b3 [|? ?]]]]]; try discriminate.
  unfold unpack_le_i32. intro H.
  assert (E : forall a b : Z, Some a = Some b -> a = b) by congruence.
  apply E in H. subst z.
  pose proof (byte_val_range b0). pose proof (byte_val_range b1).
  pose proof (byte_val_range b2). pose proof (byte_val_range b3).
  match goal with
  | |- context [if ?a <? ?b then _ else _] => destruct (Z.ltb_spec a b)
  end; lia.
Qed.

(** ** Stepping through the monad *)

Ltac fields :=
  cbn [conn trace fst snd negb andb
       host port dbuser dbpass stream callback alive authenticate
       autoreconnect dbname deferred_message deferred_callback backend_class
       usage_count request_timeout min_timeout timeout start_time request_id
       has_request_id
       set_stream set_callback set_alive set_authenticate
       set_deferred_message set_deferred_callback set_usage_count
       set_timeout set_start_time set_request_id] in *.

Ltac step :=
  repeat (progress (unfold bind, get, modify, emit, raise, ret, history,
                      try_except, stream_call, io, clear_deferred,
                      struct_unpack, message_query, read_request_id,
                      io_loop;
                    fields)).

Ltac use H := rewrite H; step.

(** *** Busy connections *)

(** C1: a [send_message] issued while a completion is pending raises
    [ProgrammingError] at once; the connection and the trace of I/O are
    exactly what they were (no write, no read, no reconnect). *)
Theorem send_message_busy (env : Env) (w : World) (message : Message)
    (cb : option Callback) (pending : Callback) :
  callback (conn w) = Some pending ->
  send_message env message cb w
  = (Raise (ProgrammingError "connection already in use"), w).
Proof.
  intro H. unfold send_message. step. rewrite H. reflexivity.
Qed.

(** *** Fire-and-forget sends *)

(** C8: with no completion registered, [_send_message] writes the encoded
    bytes and never issues a read; when the write goes through, the
    in-flight request id is cleared and the very next event is the
    connection re-caching itself into the pool. *)
Theorem fire_and_forget (env : Env) (w : World) (rid : Z) (payload : bytes)
    (h : nat) :
  callback (conn w) = None ->
  stream (conn w) = Some h ->
  let r := _send_message env (Some (rid, payload)) w in
  reads (trace (snd r)) = reads (trace w)
  /\ (exists rest, trace (snd r) = trace w ++ EvWrite payload :: rest)
  /\ (io_fault env (trace w ++ [EvWrite payload]) = None ->
      r = (Ok tt,
           mkWorld (set_request_id None
                      (set_usage_count (usage_count (conn w) + 1) (conn w)))
                   (trace w ++ [EvWrite payload; EvCache]))).
Proof.
  intros Hcb Hs r. subst r. unfold _send_message. step. use Hs.
  destruct (io_fault env (trace w ++ [EvWrite payload])) as [x|] eqn:F.
  - destruct (is_IOError x); fields;
      (split; [rewrite reads_app, app_nil_r; reflexivity|]);
      (split; [eexists; reflexivity | discriminate]).
  - step. use Hcb.
    rewrite <- app_assoc. cbn [app].
    split; [rewrite reads_app, app_nil_r; reflexivity|].
    split; [eexists; reflexivity|].
    intros _. reflexivity.
Qed.

(** *** The reply header *)

(** C3: for a 16-byte header, on a connection that holds an in-flight
    request id [stored], the parser reads three little-endian signed
    fields and accepts the header exactly when the field at bytes 8-11
    equals [stored] and the field at bytes 12-15 equals the reply opcode 1.
    On any mismatch it raises [AssertionError] with the connection and the
    trace untouched (no body read).  When both agree it issues exactly one
    read, of (length - 16) bytes, whose continuation is the body handler. *)
Theorem parse_header_checks (env : Env) (w : World) (header : bytes) (h : nat)
    (stored : Z) :
  List.length header = 16%nat ->
  stream (conn w) = Some h ->
  has_request_id (conn w) = true ->
  request_id (conn w) = Some stored ->
  exists len rid op,
    unpack_le_i32 (firstn 4 header) = Some len
    /\ unpack_le_i32 (firstn 4 (skipn 8 header)) = Some rid
    /\ unpack_le_i32 (skipn 12 header) = Some op
    /\ (if (rid =? stored) && (op =? 1)
        then
          trace (snd (_parse_header env header w))
          = trace w ++ [EvRead (len - 16) ParseResponse]
          /\ (io_fault env (trace w ++ [EvRead (len - 16) ParseResponse]) = None ->
              _parse_header env header w
              = (Ok tt, mkWorld (conn w)
                          (trace w ++ [EvRead (len - 16) ParseResponse])))
        else _parse_header env header w = (Raise AssertionError, w)).
Proof.
  intros Hlen Hs Hhas Hid.
  destruct (header_16_fields header Hlen) as (len & rid & op & E1 & E2 & E3).
  exists len, rid, op. repeat (split; [assumption|]).
  unfold _parse_header. step. use E1. use E2. use Hhas. use Hid.
  unfold id_matches.
  destruct (rid =? stored); cbn [negb andb]; [|reflexivity].
  use E3. rewrite (Z.eqb_sym 1 op).
  destruct (op =? 1); cbn [negb]; [|reflexivity].
  use Hs.
  destruct (io_fault env (trace w ++ [EvRead (len - 16) ParseResponse])) as [x|].
  - destruct (is_IOError x); fields; (split; [reflexivity | discriminate]).
  - fields. split; [reflexivity|]. intros _. reflexivity.
Qed.

(** *** The authentication reply *)

(** C10: an authentication reply delivered without a transport error whose
    document count is not 1 stops [_finish_authentication] on its
    assertion: [AssertionError] is raised, no [AuthenticationError], and
    nothing is changed (the deferred pair included). *)
Theorem finish_authentication_count_assertion (env : Env) (w : World)
    (r : Response) :
  number_returned r <> 1 ->
  _finish_authentication env (Some r) None w = (Raise AssertionError, w)
  /\ exn_class AssertionError <> exn_class (AuthenticationError (PStr "")).
Proof.
  intro H. split; [|discriminate].
  unfold _finish_authentication.
  destruct (Z.eqb_spec (number_returned r) 1) as [E|E]; [contradiction|].
  reflexivity.
Qed.

Ltac computed := vm_compute; reflexivity.

Lemma send_message_busy_witness :
  callback (conn nonce_pending) = Some StartAuthentication
  /\ send_message sample_env count_message None nonce_pending
     = (Raise (ProgrammingError "connection already in use"), nonce_pending).
Proof.
  split; [computed|].
  apply (send_message_busy sample_env nonce_pending count_message None
           StartAuthentication).
  computed.
Defined.

Lemma fire_and_forget_witness :
  callback (conn plain_world) = None
  /\ stream (conn plain_world) = Some 1%nat
  /\ io_fault sample_env (trace plain_world ++ [EvWrite (snd find_message)]) = None
  /\ _send_message sample_env (Some (fst find_message, snd find_message)) plain_world
     = (Ok tt,
        mkWorld (set_request_id None
                   (set_usage_count (usage_count (conn plain_world) + 1)
                      (conn plain_world)))
                (trace plain_world ++ [EvWrite (snd find_message); EvCache])).
Proof.
  split; [computed|]. split; [computed|]. split; [computed|].
  apply (fire_and_forget sample_env plain_world (fst find_message)
           (snd find_message) 1%nat); computed.
Defined.

Lemma parse_header_checks_witness :
  List.length (echo_header nonce_pending) = 16%nat
  /\ stream (conn nonce_pending) = Some 1%nat
  /\ has_request_id (conn nonce_pending) = true
  /\ request_id (conn nonce_pending) = Some 5
  /\ exists len rid op,
       unpack_le_i32 (firstn 4 (echo_header nonce_pending)) = Some len
       /\ unpack_le_i32 (firstn 4 (skipn 8 (echo_header nonce_pending))) = Some rid
       /\ unpack_le_i32 (skipn 12 (echo_header nonce_pending)) = Some op
       /\ (if (rid =? 5) && (op =? 1)
           then
             trace (snd (_parse_header sample_env (echo_header nonce_pending)
                           nonce_pending))
             = trace nonce_pending ++ [EvRead (len - 16) ParseResponse]
             /\ (io_fault sample_env
                   (trace nonce_pending ++ [EvRead (len - 16) ParseResponse]) = None ->
                 _parse_header sample_env (echo_header nonce_pending) nonce_pending
                 = (Ok tt, mkWorld (conn nonce_pending)
                             (trace nonce_pending
                              ++ [EvRead (len - 16) ParseResponse])))
           else _parse_header sample_env (echo_header nonce_pending) nonce_pending
                = (Raise AssertionError, nonce_pending)).
Proof.
  do 4 (split; [computed|]).
  apply (parse_header_checks sample_env nonce_pending
           (echo_header nonce_pending) 1%nat 5); computed.
Defined.

Lemma finish_authentication_count_assertion_witness :
  number_returned (mkResponse 2 [[("ok", VInt 1)]; [("ok", VInt 1)]]) <> 1
  /\ _finish_authentication sample_env
       (Some (mkResponse 2 [[("ok", VInt 1)]; [("ok", VInt 1)]])) None auth_pending
     = (Raise AssertionError, auth_pending)
  /\ exn_class AssertionError <> exn_class (AuthenticationError (PStr "")).
Proof.
  assert (H : number_returned (mkResponse 2 [[("ok", VInt 1)]; [("ok", VInt 1)]]) <> 1)
    by discriminate.
  split; [exact H|].
  exact (finish_authentication_count_assertion sample_env auth_pending _ H).
Defined.

(** ** Relations that every step respects *)

Section Stable.

Variable R : World -> World -> Prop.
Hypothesis R_refl : forall w, R w w.
Hypothesis R_trans : forall a b c, R a b -> R b c -> R a c.

Lemma stable_ret {A} (a : A) : stable R (ret a).
Proof. intro w. apply R_refl. Qed.

Lemma stable_raise {A} (e : Exn) : stable R (@raise A e).
Proof. intro w. apply R_refl. Qed.

Lemma stable_get : stable R get.
Proof. intro w. apply R_refl. Qed.

Lemma stable_history : stable R history.
Proof. intro w. apply R_refl. Qed.

Lemma stable_bind {A B} (m : M A) (f : A -> M B) :
  stable R m -> (forall a, stable R (f a)) -> stable R (bind m f).
Proof.
  intros Hm Hf w. unfold bind. specialize (Hm w).
  destruct (m w) as [[a|e] w1]; cbn [snd] in *.
  - eapply R_trans; [exact Hm | apply Hf].
  - exact Hm.
Qed.

Lemma stable_try_except {A} (m : M A) (catches : Exn -> bool) (h : Exn -> M A) :
  stable R m -> (forall e, stable R (h e)) -> stable R (try_except m catches h).
Proof.
  intros Hm Hh w. unfold try_except. specialize (Hm w).
  destruct (m w) as [[a|e] w1]; cbn [snd] in *; [exact Hm|].
  destruct (catches e); cbn [snd]; [|exact Hm].
  eapply R_trans; [exact Hm | apply Hh].
Qed.

Hypothesis R_modify : forall f w, authenticate (f (conn w)) = authenticate (conn w) ->
  R w (mkWorld (f (conn w)) (trace w)).
Hypothesis R_authenticate : forall w,
  R w (mkWorld (set_authenticate true (conn w)) (trace w)).
Hypothesis R_event : forall e w,
  match e with EvInvoke _ _ _ => False | _ => True end ->
  R w (mkWorld (conn w) (trace w ++ [e])).

Lemma stable_modify (f : Connection -> Connection) :
  (forall c, authenticate (f c) = authenticate c) -> stable R (modify f).
Proof. intros H w. apply R_modify, H. Qed.

Lemma stable_emit (e : Event) :
  match e with EvInvoke _ _ _ => False | _ => True end -> stable R (emit e).
Proof. intros H w. apply R_event, H. Qed.

Lemma stable_io (env : Env) (e : Event) :
  match e with EvInvoke _ _ _ => False | _ => True end -> stable R (io env e).
Proof.
  intros H w. unfold io.
  destruct (io_fault env (trace w ++ [e])); apply R_event, H.
Qed.

Ltac stable_step :=
  match goal with
  | |- stable _ (bind _ _) => apply stable_bind; [|intro]
  | |- stable _ (try_except _ _ _) => apply stable_try_except; [|intro]
  | |- stable _ (ret _) => apply stable_ret
  | |- stable _ (raise _) => apply stable_raise
  | |- stable _ get => apply stable_get
  | |- stable _ history => apply stable_history
  | |- stable _ (modify _) => apply stable_modify; intro; reflexivity
  | |- stable _ (emit _) => apply stable_emit; exact I
  | |- stable _ (io _ _) => apply stable_io; exact I
  | |- stable _ io_loop => unfold io_loop
  | |- stable _ read_request_id => unfold read_request_id
  | |- stable _ (match ?x with _ => _ end) => destruct x
  end.

Ltac stable_auto := repeat stable_step.

Variable env : Env.

Lemma stable_stream_call (e : Event) :
  match e with EvInvoke _ _ _ => False | _ => True end ->
  stable R (stream_call env e).
Proof.
  intro H. unfold stream_call. stable_auto. apply stable_io, H.
Qed.

Lemma stable_message_query options ns skip limit q fields :
  stable R (message_query env options ns skip limit q fields).
Proof. unfold message_query. stable_auto. Qed.

Lemma stable_send_message' (message : option Message) :
  stable R (_send_message env message).
Proof.
  unfold _send_message. stable_auto; apply stable_stream_call; exact I.
Qed.

Lemma stable_finish_authentication response error :
  stable R (_finish_authentication env response error).
Proof.
  unfold _finish_authentication, clear_deferred.
  stable_auto; apply stable_send_message'.
Qed.

Lemma stable_start_authentication response error :
  stable R (_start_authentication env response error).
Proof.
  unfold _start_authentication.
  stable_auto; try apply stable_message_query; apply stable_send_message'.
Qed.

Lemma stable_connect : stable R (__connect env).
Proof.
  unfold __connect. stable_auto.
  intro w. apply R_authenticate.
Qed.

End Stable.

(** *** No completion is invoked behind the caller's back *)

Lemma same_invocations_refl w : same_invocations w w.
Proof. reflexivity. Qed.

Lemma same_invocations_trans a b c :
  same_invocations a b -> same_invocations b c -> same_invocations a c.
Proof. unfold same_invocations. congruence. Qed.

Lemma same_invocations_modify f w :
  authenticate (f (conn w)) = authenticate (conn w) ->
  same_invocations w (mkWorld (f (conn w)) (trace w)).
Proof. reflexivity. Qed.

Lemma same_invocations_event e w :
  match e with EvInvoke _ _ _ => False | _ => True end ->
  same_invocations w (mkWorld (conn w) (trace w ++ [e])).
Proof.
  intro H. unfold same_invocations. cbn [trace].
  rewrite invocations_app.
  destruct e; try contradiction; apply app_nil_r.
Qed.

Ltac silent_side :=
  first [ exact same_invocations_refl | exact same_invocations_trans
        | exact same_invocations_modify | exact same_invocations_event ].

Lemma silent_start_authentication env response error w :
  invocations (trace (snd (_start_authentication env response error w)))
  = invocations (trace w).
Proof. apply (stable_start_authentication same_invocations); silent_side. Qed.

Lemma silent_finish_authentication env response error w :
  invocations (trace (snd (_finish_authentication env response error w)))
  = invocations (trace w).
Proof. apply (stable_finish_authentication same_invocations); silent_side. Qed.

(** Calling a completion is one invocation, with the arguments given. *)
Lemma invoke_invocations env cb response error w :
  invocations (trace (snd (invoke env cb response error w)))
  = invocations (trace w) ++ [(cb, response, error)].
Proof.
  unfold invoke. step.
  destruct cb.
  - cbn [snd trace]. rewrite invocations_app. reflexivity.
  - rewrite silent_start_authentication. cbn [trace].
    rewrite invocations_app. reflexivity.
  - rewrite silent_finish_authentication. cbn [trace].
    rewrite invocations_app. reflexivity.
Qed.

(** *** The reply body *)

(** What [_parse_response] does once a completion is pending: clear the two
    slots, re-cache unless a request is deferred, decode, then call. *)
Lemma parse_response_pending env w body cb :
  callback (conn w) = Some cb ->
  has_request_id (conn w) = true ->
  _parse_response env body w
  = let recached := match deferred_message (conn w) with
                    | None => [EvCache]
                    | Some _ => []
                    end in
    let c := set_callback None (set_request_id None (conn w)) in
    match _unpack_response env body (request_id (conn w)) with
    | inl e => invoke env cb None (Some e)
                 (mkWorld c (trace w ++ recached ++ [EvLog]))
    | inr r =>
        invoke env cb (Some r)
          (if reports_error r
           then Some (IntegrityError (first_field "err" r) (first_field "code" r))
           else None)
          (mkWorld c (trace w ++ recached))
    end.
Proof.
  intros H Hhas. unfold _parse_response. step. use H. use Hhas.
  destruct (deferred_message (conn w)); step;
    destruct (_unpack_response env body (request_id (conn w))) as [e|r]; step;
    rewrite ?app_nil_r, <- ?app_assoc; try reflexivity;
    destruct (reports_error r); reflexivity.
Qed.

(** A completion pending on a connection that never assigned a request id
    (a state no sequence of calls reaches): the handler stops on the read
    of the attribute, before it changes anything. *)
Lemma parse_response_no_request_id env w body cb :
  callback (conn w) = Some cb ->
  has_request_id (conn w) = false ->
  _parse_response env body w = (Raise AttributeError, w).
Proof.
  intros H Hhas. unfold _parse_response. step. use H. use Hhas. reflexivity.
Qed.

(** The test behind the [IntegrityError] branch, spelled out: the first
    document has a truthy ["err"] and a truthy ["code"], and these are the
    two values the error is built from. *)
Lemma reports_error_fields (r : Response) :
  reports_error r = true <->
  exists d rest err code,
    data r = d :: rest
    /\ doc_get "err" d = Some err /\ truthy err = true
    /\ doc_get "code" d = Some code /\ truthy code = true
    /\ first_field "err" r = err /\ first_field "code" r = code.
Proof.
  unfold reports_error, first_field, get_truthy. split.
  - destruct (data r) as [|d rest] eqn:Ed; [discriminate|].
    destruct (doc_get "err" d) as [err|] eqn:Ee; [|discriminate].
    destruct (doc_get "code" d) as [code|] eqn:Ec;
      [|rewrite andb_false_r; discriminate].
    intro H. apply andb_prop in H. destruct H as [He Hc].
    exists d, rest, err, code. rewrite Ee, Ec. repeat split; assumption.
  - intros (d & rest & err & code & -> & -> & He & -> & Hc & _).
    rewrite He, Hc. reflexivity.
Qed.

(** C4: when a reply body arrives with a completion pending (on a
    connection that has sent, so that its request id exists), that
    completion is called exactly once: with [(None, e)] if decoding raised
    [e]; with the response and [IntegrityError(err, code)] if the first
    document passes the code's err-and-code test; with the response and no
    error otherwise. *)
Theorem parse_response_completion (env : Env) (w : World) (body : bytes)
    (cb : Callback) :
  callback (conn w) = Some cb ->
  has_request_id (conn w) = true ->
  invocations (trace (snd (_parse_response env body w)))
  = invocations (trace w)
    ++ [match _unpack_response env body (request_id (conn w)) with
        | inl e => (cb, None, Some e)
        | inr r =>
            if reports_error r
            then (cb, Some r,
                  Some (IntegrityError (first_field "err" r) (first_field "code" r)))
            else (cb, Some r, None)
        end].
Proof.
  intros H Hhas. rewrite (parse_response_pending env w body cb H Hhas). cbv zeta.
  destruct (_unpack_response env body (request_id (conn w))) as [e|r].
  - rewrite invoke_invocations. cbn [trace].
    rewrite !invocations_app. cbn [invocations].
    destruct (deferred_message (conn w)); cbn [invocations];
      rewrite ?app_nil_r; reflexivity.
  - rewrite invoke_invocations. cbn [trace].
    rewrite !invocations_app.
    destruct (deferred_message (conn w)); cbn [invocations];
      rewrite ?app_nil_r; destruct (reports_error r); reflexivity.
Qed.

Lemma parse_response_completion_witness :
  callback (conn (after (_parse_header sample_env (echo_header find_pending))
                    find_pending)) = Some (UserCallback 1)
  /\ has_request_id
       (conn (after (_parse_header sample_env (echo_header find_pending))
                find_pending)) = true
  /\ invocations
       (trace (snd (_parse_response sample_env error_body
                      (after (_parse_header sample_env (echo_header find_pending))
                         find_pending))))
     = invocations (trace find_pending)
       ++ [(UserCallback 1,
            Some (mkResponse 1 [[("err", VStr "E"); ("code", VInt 11000)]]),
            Some (IntegrityError (VStr "E") (VInt 11000)))].
Proof.
  do 2 (split; [computed|]).
  rewrite (parse_response_completion sample_env _ error_body (UserCallback 1));
    computed.
Defined.

(** C5: a body delivered with no completion pending changes nothing.  With
    one pending (on a connection that has sent, so that its request id
    exists), the completion is called in a connection whose pending
    completion and in-flight id are already cleared, and the trace up to
    the call has gained one [EvCache] exactly when no request was deferred;
    for a caller's completion that event therefore precedes the call. *)
Theorem parse_response_recache (env : Env) (w : World) (body : bytes) :
  match callback (conn w) with
  | None => _parse_response env body w = (Ok tt, w)
  | Some cb =>
      has_request_id (conn w) = true ->
      exists response error logs,
        (logs = [] \/ logs = [EvLog])
        /\ let recached := match deferred_message (conn w) with
                           | None => [EvCache]
                           | Some _ => []
                           end in
           let cleared := set_callback None (set_request_id None (conn w)) in
           _parse_response env body w
           = invoke env cb response error
               (mkWorld cleared (trace w ++ recached ++ logs))
           /\ (forall k, cb = UserCallback k ->
               _parse_response env body w
               = (Ok tt,
                  mkWorld cleared
                    (trace w ++ recached ++ logs
                     ++ [EvInvoke (UserCallback k) response error])))
  end.
Proof.
  destruct (callback (conn w)) as [cb|] eqn:H.
  - intro Hhas. rewrite (parse_response_pending env w body cb H Hhas). cbv zeta.
    destruct (_unpack_response env body (request_id (conn w))) as [e|r].
    + exists None, (Some e), [EvLog]. split; [right; reflexivity|].
      split; [reflexivity|].
      intros k ->. unfold invoke. step. rewrite <- !app_assoc. reflexivity.
    + eexists (Some r), _, []. split; [left; reflexivity|].
      rewrite app_nil_r. split; [reflexivity|].
      intros k ->. unfold invoke. step. rewrite <- !app_assoc. reflexivity.
  - unfold _parse_response. step. use H. reflexivity.
Qed.

Lemma parse_response_recache_witness :
  callback (conn find_pending) = Some (UserCallback 1)
  /\ has_request_id (conn find_pending) = true
  /\ deferred_message (conn find_pending) = None
  /\ exists response error logs,
       _parse_response sample_env some_body find_pending
       = (Ok tt,
          mkWorld (set_callback None (set_request_id None (conn find_pending)))
            (trace find_pending ++ [EvCache] ++ logs
             ++ [EvInvoke (UserCallback 1) response error])).
Proof.
  assert (E : callback (conn find_pending) = Some (UserCallback 1)) by computed.
  assert (D : deferred_message (conn find_pending) = None) by computed.
  assert (A : has_request_id (conn find_pending) = true) by computed.
  split; [exact E|]. split; [exact A|]. split; [exact D|].
  pose proof (parse_response_recache sample_env find_pending some_body) as P.
  rewrite E in P. destruct (P A) as (response & error & logs & _ & _ & H).
  specialize (H 1%nat eq_refl). rewrite D in H.
  exists response, error, logs. exact H.
Defined.

(** *** Leaving the handshake *)

(** The two failure exits of [_finish_authentication] that the code names,
    and its success exit, all clear the deferred pair. *)
Lemma finish_authentication_error_clears env w response e :
  _finish_authentication env response (Some e) w
  = (Raise (AuthenticationError (PExn e)),
     mkWorld (set_deferred_callback None (set_deferred_message None (conn w)))
       (trace w)).
Proof. reflexivity. Qed.

Lemma finish_authentication_rejected_clears env w r d rest ok errmsg :
  number_returned r = 1 -> data r = d :: rest ->
  doc_get "ok" d = Some ok -> value_ne_1 ok = true ->
  doc_get "errmsg" d = Some errmsg ->
  _finish_authentication env (Some r) None w
  = (Raise (AuthenticationError (PVal errmsg)),
     mkWorld (set_deferred_callback None (set_deferred_message None (conn w)))
       (trace w ++ [EvLog])).
Proof.
  intros Hn Hd Hok Hne Hmsg. unfold _finish_authentication.
  rewrite Hn, Hd, Hok, Hne, Hmsg. reflexivity.
Qed.

(** C7: the nonce-fetch failure exit (the connection has sent the getnonce
    command, so its request id exists).  When the nonce reply does not decode,
    [_start_authentication] is called with the error and raises
    [AuthenticationError]; no completion is pending afterwards, yet the
    deferred message and completion are still the ones stored by
    [send_message]. *)
Theorem nonce_failure_keeps_deferred (env : Env) (w : World) (body : bytes)
    (e : Exn) :
  callback (conn w) = Some StartAuthentication ->
  has_request_id (conn w) = true ->
  _unpack_response env body (request_id (conn w)) = inl e ->
  let r := _parse_response env body w in
  fst r = Raise (AuthenticationError (PExn e))
  /\ callback (conn (snd r)) = None
  /\ deferred_message (conn (snd r)) = deferred_message (conn w)
  /\ deferred_callback (conn (snd r)) = deferred_callback (conn w).
Proof.
  intros H Hhas D. cbv zeta.
  rewrite (parse_response_pending env w body StartAuthentication H Hhas).
  cbv zeta. rewrite D. unfold invoke, _start_authentication. step.
  repeat split.
Qed.

Lemma nonce_failure_keeps_deferred_witness :
  callback (conn nonce_pending) = Some StartAuthentication
  /\ has_request_id (conn nonce_pending) = true
  /\ _unpack_response sample_env [] (request_id (conn nonce_pending))
     = inl (DecodeError 0)
  /\ deferred_message (conn nonce_pending) = Some find_message
  /\ callback (conn (snd (_parse_response sample_env [] nonce_pending))) = None
  /\ deferred_message (conn (snd (_parse_response sample_env [] nonce_pending)))
     = deferred_message (conn nonce_pending).
Proof.
  do 4 (split; [computed|]).
  destruct (nonce_failure_keeps_deferred sample_env nonce_pending []
              (DecodeError 0)) as (_ & Hc & Hm & _);
    [computed | computed | computed |].
  split; [exact Hc | exact Hm].
Defined.

(** *** Timeouts and closing *)

(** With nothing pending or a caller's completion pending, the timeout
    does what its docstrings say: the completion gets
    [InterfaceError('connection closed')], the slots are cleared, the
    stream is closed and the connection is re-cached. *)
Lemma on_timeout_closes env w h :
  stream (conn w) = Some h ->
  match callback (conn w) with
  | Some (UserCallback _) | None => True
  | _ => False
  end ->
  let notified := match callback (conn w) with
                  | Some cb => [EvInvoke cb None (Some connection_closed)]
                  | None => []
                  end in
  io_fault env (trace w ++ notified ++ [EvStreamClose]) = None ->
  _on_timeout env w
  = (Ok tt,
     mkWorld (set_alive false (set_callback None (set_timeout None (conn w))))
       (trace w ++ notified ++ [EvStreamClose; EvCache])).
Proof.
  intros Hs Hcb notified Hio. subst notified.
  unfold _on_timeout, close, _close, notify_closed. step.
  destruct (callback (conn w)) as [[k| |]|]; try contradiction.
  - unfold invoke. step. use Hs. rewrite <- !app_assoc in *. cbn [app] in *.
    use Hio. rewrite <- !app_assoc. reflexivity.
  - step. use Hs. cbn [app] in *. use Hio. rewrite <- !app_assoc. reflexivity.
Qed.

(** C6: the timeout firing while the nonce fetch is outstanding.  The timer
    reference is cleared and the pending completion is called with the
    [InterfaceError], but that completion is [_start_authentication], which
    raises; [_close] is left before it clears the completion, marks the
    connection not-alive, closes the stream or re-caches. *)
Theorem timeout_during_nonce_fetch (env : Env) (w : World) :
  callback (conn w) = Some StartAuthentication ->
  _on_timeout env w
  = (Raise (AuthenticationError (PExn connection_closed)),
     mkWorld (set_timeout None (conn w))
       (trace w ++ [EvInvoke StartAuthentication None (Some connection_closed);
                    EvLog; EvLog])).
Proof.
  intro H. unfold _on_timeout, close, _close, notify_closed. step. use H.
  unfold invoke, _start_authentication. step.
  rewrite <- !app_assoc. reflexivity.
Qed.

Lemma timeout_during_nonce_fetch_witness :
  callback (conn nonce_pending) = Some StartAuthentication
  /\ alive (conn nonce_pending) = true
  /\ _on_timeout sample_env nonce_pending
     = (Raise (AuthenticationError (PExn connection_closed)),
        mkWorld (set_timeout None (conn nonce_pending))
          (trace nonce_pending
           ++ [EvInvoke StartAuthentication None (Some connection_closed);
               EvLog; EvLog])).
Proof.
  split; [computed|]. split; [computed|].
  apply (timeout_during_nonce_fetch sample_env nonce_pending). computed.
Defined.

(** *** Connecting *)

(** One call of [__connect] creates one socket, whatever happens next. *)
Lemma connect_opens_one_socket env w :
  sockets_opened (trace (snd (__connect env w)))
  = S (sockets_opened (trace w)).
Proof.
  unfold __connect. step.
  destruct (io_fault env (trace w ++ [EvSocket])) as [x|]; step.
  - destruct (is_socket_error x); step;
      rewrite sockets_opened_app; cbn [sockets_opened]; lia.
  - destruct (is_tornado (backend_class (conn w))); step.
    + destruct (negb (min_timeout (conn w) =? 0)); step;
        match goal with
        | |- context [io_fault env ?t] => destruct (io_fault env t) as [x|]
        end; step; try destruct (is_socket_error x); step;
        try destruct (has_credentials _); step;
        rewrite !sockets_opened_app; cbn [sockets_opened]; lia.
    + match goal with
      | |- context [io_fault env ?t] => destruct (io_fault env t) as [x|]
      end; step; try destruct (is_socket_error x); step;
      try destruct (has_credentials _); step;
      rewrite !sockets_opened_app; cbn [sockets_opened]; lia.
Qed.

(** Every way [__connect] can raise: a [socket.error] of the transport,
    wrapped, or some other fault of the transport, passed through.  The
    connection is not marked alive by a failed call. *)
Lemma connect_raises env w e w' :
  __connect env w = (Raise e, w') ->
  alive (conn w') = alive (conn w)
  /\ ((exists x, is_socket_error x = true /\ e = InterfaceError (PExn x))
      \/ (is_socket_error e = false /\ exists tr, io_fault env tr = Some e)).
Proof.
  assert (Done : forall x tr c t,
             io_fault env tr = Some x ->
             (if is_socket_error x
              then (Raise (InterfaceError (PExn x)), mkWorld c t)
              else (Raise x, mkWorld c t)) = (@Raise unit e, w') ->
             alive c = alive (conn w) ->
             alive (conn w') = alive (conn w)
             /\ ((exists x, is_socket_error x = true /\ e = InterfaceError (PExn x))
                 \/ (is_socket_error e = false /\ exists tr, io_fault env tr = Some e))).
  { intros x tr c t F H A. destruct (is_socket_error x) eqn:Sx;
      injection H as <- <-; (split; [exact A|]).
    - left. exists x. split; [exact Sx | reflexivity].
    - right. split; [exact Sx | exists tr; exact F]. }
  unfold __connect. step.
  destruct (io_fault env (trace w ++ [EvSocket])) as [x|] eqn:F; step.
  - intro H.
    eapply Done; [exact F | destruct (is_socket_error x); exact H | reflexivity].
  - destruct (is_tornado (backend_class (conn w))); step.
    + destruct (negb (min_timeout (conn w) =? 0)); step;
        match goal with
        | |- context [io_fault env ?t] => destruct (io_fault env t) as [x|] eqn:F2
        end; step;
        try (destruct (has_credentials _); step; discriminate);
        (intro H; eapply Done;
         [exact F2 | destruct (is_socket_error x); exact H | reflexivity]).
    + match goal with
      | |- context [io_fault env ?t] => destruct (io_fault env t) as [x|] eqn:F2
      end; step;
      try (destruct (has_credentials _); step; discriminate);
      (intro H; eapply Done;
       [exact F2 | destruct (is_socket_error x); exact H | reflexivity]).
Qed.

(** C9 (as the code has it): a [socket.error] raised while the transport is
    opened, by [socket.socket()] or by the connect call of either backend,
    leaves [__connect] as an [InterfaceError] wrapping that error, never as
    any other class; the connection is not marked alive by the failed call
    and the trace shows a single attempt, with no second socket. *)
Theorem connect_failure_is_interface_error (env : Env) (w : World) (n : Z) :
  let c0 := set_start_time (time_time env (trace w))
              (set_usage_count 0 (conn w)) in
  let failed := Raise (InterfaceError (PExn (SocketError n))) in
  (io_fault env (trace w ++ [EvSocket]) = Some (SocketError n) ->
   __connect env w = (failed, mkWorld c0 (trace w ++ [EvSocket])))
  /\ (io_fault env (trace w ++ [EvSocket]) = None ->
      is_tornado (backend_class (conn w)) = false ->
      io_fault env (trace w ++ [EvSocket; EvSockConnect (host (conn w)) (port (conn w))])
      = Some (SocketError n) ->
      __connect env w
      = (failed,
         mkWorld c0 (trace w ++ [EvSocket;
                                 EvSockConnect (host (conn w)) (port (conn w))])))
  /\ (forall e w', __connect env w = (Raise e, w') ->
      alive (conn w') = alive (conn w)
      /\ sockets_opened (trace w') = S (sockets_opened (trace w))
      /\ ((exists x, is_socket_error x = true /\ e = InterfaceError (PExn x))
          \/ (is_socket_error e = false /\ exists tr, io_fault env tr = Some e))).
Proof.
  cbv zeta. split; [|split].
  - intro F. unfold __connect. step. use F. reflexivity.
  - intros F T F2. unfold __connect. step. use F. use T.
    rewrite <- app_assoc. cbn [app]. use F2. reflexivity.
  - intros e w' H. destruct (connect_raises env w e w' H) as [A C].
    split; [exact A|]. split; [|exact C].
    pose proof (connect_opens_one_socket env w) as S1.
    rewrite H in S1. exact S1.
Qed.

Lemma connect_failure_is_interface_error_witness :
  io_fault refusing_env (trace fresh_world ++ [EvSocket]) = Some (SocketError 111)
  /\ __connect refusing_env fresh_world
     = (Raise (InterfaceError (PExn (SocketError 111))),
        mkWorld (set_start_time (time_time refusing_env (trace fresh_world))
                   (set_usage_count 0 (conn fresh_world)))
          (trace fresh_world ++ [EvSocket])).
Proof.
  split; [computed|].
  apply (connect_failure_is_interface_error refusing_env fresh_world 111).
  computed.
Defined.

(** C9 as the claim words it fails: the exception that leaves [__connect]
    on a refused socket is an [InterfaceError], not a [ConnectionError]. *)
Lemma connect_failure_not_ConnectionError :
  ~ (forall e w',
       __init__ refusing_env "localhost" 27017 20 20 None None true "test"
         ASYNC_BACKEND_TORNADO = (Raise e, w') ->
       exn_class e = "ConnectionError").
Proof.
  intro H.
  specialize (H (InterfaceError (PExn (SocketError 111))) _ eq_refl).
  discriminate H.
Qed.

(** *** The authenticate flag *)

(** A successful [__connect] on a credentialed connection leaves it alive,
    with a stream, with the flag raised, and with whatever completion was
    pending before (none, when [send_message] reconnects). *)
Lemma connect_sets_authenticate env w w' :
  __connect env w = (Ok tt, w') ->
  has_credentials (conn w) = true ->
  authenticate (conn w') = true
  /\ alive (conn w') = true
  /\ stream (conn w') <> None
  /\ callback (conn w') = callback (conn w).
Proof.
  unfold __connect. step.
  destruct (io_fault env (trace w ++ [EvSocket])) as [x|]; step.
  - destruct (is_socket_error x); discriminate.
  - destruct (is_tornado (backend_class (conn w))); step.
    + destruct (negb (min_timeout (conn w) =? 0)); step;
        match goal with
        | |- context [io_fault env ?t] => destruct (io_fault env t) as [x|]
        end; step; try (destruct (is_socket_error x); discriminate);
        unfold has_credentials; fields;
        intros H C; rewrite C in H; injection H as <-;
        repeat split; discriminate.
    + match goal with
      | |- context [io_fault env ?t] => destruct (io_fault env t) as [x|]
      end; step; try (destruct (is_socket_error x); discriminate);
      unfold has_credentials; fields;
      intros H C; rewrite C in H; injection H as <-;
      repeat split; discriminate.
Qed.

(** No method ever lowers the flag again. *)
Lemma flag_kept_refl w : flag_kept w w.
Proof. intro H. exact H. Qed.

Lemma flag_kept_trans a b c : flag_kept a b -> flag_kept b c -> flag_kept a c.
Proof. unfold flag_kept. auto. Qed.

Lemma flag_kept_modify f w :
  authenticate (f (conn w)) = authenticate (conn w) ->
  flag_kept w (mkWorld (f (conn w)) (trace w)).
Proof. unfold flag_kept. cbn [conn]. intros -> H. exact H. Qed.

Lemma flag_kept_authenticate w :
  flag_kept w (mkWorld (set_authenticate true (conn w)) (trace w)).
Proof. intros _. reflexivity. Qed.

Lemma flag_kept_event e w : flag_kept w (mkWorld (conn w) (trace w ++ [e])).
Proof. intro H. exact H. Qed.

Lemma flag_kept_event' e w :
  match e with EvInvoke _ _ _ => False | _ => True end ->
  flag_kept w (mkWorld (conn w) (trace w ++ [e])).
Proof. intros _. apply flag_kept_event. Qed.

Ltac flag_side :=
  first [ exact flag_kept_refl | exact flag_kept_trans | exact flag_kept_modify
        | exact flag_kept_authenticate | exact flag_kept_event' ].

Ltac flag_step env :=
  match goal with
  | |- stable _ (bind _ _) => apply stable_bind; [flag_side | | intro]
  | |- stable _ (try_except _ _ _) => apply stable_try_except; [flag_side | | intro]
  | |- stable _ (ret _) => apply stable_ret; flag_side
  | |- stable _ (raise _) => apply stable_raise; flag_side
  | |- stable _ get => apply stable_get; flag_side
  | |- stable _ history => apply stable_history; flag_side
  | |- stable _ (modify _) => apply stable_modify; [flag_side | intro; reflexivity]
  | |- stable _ (emit _) => intro; apply flag_kept_event
  | |- stable _ (stream_call _ _) => apply stable_stream_call; [flag_side.. | exact I]
  | |- stable _ (_send_message _ _) => apply stable_send_message'; flag_side
  | |- stable _ (message_query _ _ _ _ _ _ _) => apply stable_message_query; flag_side
  | |- stable _ (_start_authentication _ _ _) =>
      apply stable_start_authentication; flag_side
  | |- stable _ (_finish_authentication _ _ _) =>
      apply stable_finish_authentication; flag_side
  | |- stable _ (__connect _) => apply stable_connect; flag_side
  | |- stable _ io_loop => unfold io_loop
  | |- stable _ read_request_id => unfold read_request_id
  | |- stable _ (match ?x with _ => _ end) => destruct x
  end.

Lemma flag_kept_invoke env cb response error :
  stable flag_kept (invoke env cb response error).
Proof. unfold invoke. repeat flag_step env. Qed.

Lemma flag_kept_parse_response env body :
  stable flag_kept (_parse_response env body).
Proof.
  unfold _parse_response. repeat flag_step env; apply flag_kept_invoke.
Qed.

Lemma flag_kept_parse_header env header :
  stable flag_kept (_parse_header env header).
Proof. unfold _parse_header, struct_unpack. repeat flag_step env. Qed.

Lemma flag_kept_send_message env message cb :
  stable flag_kept (send_message env message cb).
Proof. unfold send_message, _get_nonce. repeat flag_step env. Qed.

Lemma flag_kept_socket_close env : stable flag_kept (_socket_close env).
Proof.
  unfold _socket_close, notify_closed.
  repeat flag_step env; apply flag_kept_invoke.
Qed.

Lemma flag_kept_on_timeout env : stable flag_kept (_on_timeout env).
Proof.
  unfold _on_timeout, close, _close, notify_closed.
  repeat flag_step env; apply flag_kept_invoke.
Qed.

Lemma flag_kept_on_connect env : stable flag_kept (_on_connect env).
Proof. unfold _on_connect. repeat flag_step env. Qed.

(** *** The handshake, reply by reply *)

Section Handshake.

Variable env : Env.
Hypothesis quiet : forall tr, io_fault env tr = None.

Lemma header_accepted_fields header c :
  header_accepted header c = true ->
  exists len rid op,
    unpack_le_i32 (firstn 4 header) = Some len
    /\ unpack_le_i32 (firstn 4 (skipn 8 header)) = Some rid
    /\ unpack_le_i32 (skipn 12 header) = Some op
    /\ id_matches rid (request_id c) = true /\ op = 1
    /\ header_length header = len.
Proof.
  unfold header_accepted, header_length. intro H.
  apply andb_prop in H. destruct H as [L H].
  apply andb_prop in L. destruct L as [L _].
  apply Nat.eqb_eq in L.
  destruct (header_16_fields header L) as (len & rid & op & E1 & E2 & E3).
  rewrite E2, E3 in H. apply andb_prop in H. destruct H as [Hid Hop].
  exists len, rid, op. rewrite E1.
  repeat split; try assumption. apply Z.eqb_eq, Hop.
Qed.

Lemma header_accepted_has_id header c :
  header_accepted header c = true -> has_request_id c = true.
Proof.
  unfold header_accepted. intro H.
  apply andb_prop in H. destruct H as [L _].
  apply andb_prop in L. destruct L as [_ L]. exact L.
Qed.

Lemma parse_header_quiet w header h :
  stream (conn w) = Some h ->
  header_accepted header (conn w) = true ->
  _parse_header env header w
  = (Ok tt, mkWorld (conn w)
              (trace w ++ [EvRead (header_length header - 16) ParseResponse])).
Proof.
  intros Hs Ha.
  destruct (header_accepted_fields header (conn w) Ha)
    as (len & rid & op & E1 & E2 & E3 & Hid & -> & <-).
  unfold header_length. rewrite E1.
  unfold _parse_header. step. use E1. use E2.
  use (header_accepted_has_id header (conn w) Ha). use Hid. use E3.
  change (1 =? 1) with true. step. use Hs.
  rewrite quiet. reflexivity.
Qed.

Lemma send_quiet w rid payload h :
  stream (conn w) = Some h ->
  _send_message env (Some (rid, payload)) w
  = (Ok tt,
     match callback (conn w) with
     | Some _ =>
         mkWorld (set_request_id (Some rid)
                    (set_usage_count (usage_count (conn w) + 1) (conn w)))
           (trace w ++ [EvWrite payload; EvRead 16 ParseHeader])
     | None =>
         mkWorld (set_request_id None
                    (set_usage_count (usage_count (conn w) + 1) (conn w)))
           (trace w ++ [EvWrite payload; EvCache])
     end).
Proof.
  intro Hs. unfold _send_message. step. use Hs. rewrite quiet. step.
  destruct (callback (conn w)); step.
  - use Hs. rewrite quiet. rewrite <- app_assoc. reflexivity.
  - rewrite <- app_assoc. reflexivity.
Qed.

Lemma send_message_starts_handshake w message cb h :
  callback (conn w) = None -> alive (conn w) = true ->
  authenticate (conn w) = true -> stream (conn w) = Some h ->
  send_message env message cb w = (Ok tt, getnonce_sent env w message cb).
Proof.
  intros Hcb Ha Hauth Hs.
  unfold send_message, _get_nonce. step. use Hcb. use Ha. use Hauth. use Hcb.
  rewrite send_quiet with (h := h); [|exact Hs].
  reflexivity.
Qed.

Lemma deliver_nonce_reply w header body r nonce h message :
  callback (conn w) = Some StartAuthentication ->
  deferred_message (conn w) = Some message ->
  stream (conn w) = Some h ->
  header_accepted header (conn w) = true ->
  _unpack_response env body (request_id (conn w)) = inr r ->
  reports_error r = false ->
  nonce_of r = Some nonce ->
  deliver env header body w = (Ok tt, authenticate_sent env w header r nonce).
Proof.
  intros Hcb Hd Hs Ha Hr He Hn.
  unfold deliver, bind. rewrite (parse_header_quiet w header h Hs Ha).
  rewrite (parse_response_pending env _ body StartAuthentication);
    [|exact Hcb|exact (header_accepted_has_id header (conn w) Ha)].
  cbv zeta. fields. rewrite Hd, Hr, He. rewrite app_nil_r.
  unfold invoke, _start_authentication. step.
  unfold nonce_of in Hn. destruct (data r) as [|d rest]; [discriminate|].
  use Hn. rewrite send_quiet with (h := h); [|exact Hs]. fields.
  unfold authenticate_sent. rewrite <- !app_assoc. reflexivity.
Qed.

Lemma deliver_authenticate_reply w header body r h message cb :
  callback (conn w) = Some FinishAuthentication ->
  deferred_message (conn w) = Some message ->
  deferred_callback (conn w) = cb ->
  stream (conn w) = Some h ->
  header_accepted header (conn w) = true ->
  _unpack_response env body (request_id (conn w)) = inr r ->
  reports_error r = false ->
  auth_accepted r = true ->
  deliver env header body w = (Ok tt, request_sent w header r message cb).
Proof.
  intros Hcb Hd Hdc Hs Ha Hr He Hok.
  unfold deliver, bind. rewrite (parse_header_quiet w header h Hs Ha).
  rewrite (parse_response_pending env _ body FinishAuthentication);
    [|exact Hcb|exact (header_accepted_has_id header (conn w) Ha)].
  cbv zeta. fields. rewrite Hd, Hr, He. rewrite app_nil_r.
  unfold auth_accepted in Hok. apply andb_prop in Hok. destruct Hok as [Hn Hok].
  unfold invoke, _finish_authentication. step. rewrite Hn. cbn [negb].
  destruct (data r) as [|d rest]; [discriminate|].
  destruct (doc_get "ok" d) as [ok|]; [|discriminate].
  apply negb_true_iff in Hok. rewrite Hok. step. rewrite Hd, Hdc.
  destruct message as [rid payload].
  rewrite send_quiet with (h := h); [|exact Hs]. fields.
  unfold request_sent. destruct cb; cbn [fst snd];
    rewrite <- !app_assoc; reflexivity.
Qed.

End Handshake.

(** C2 (as the code has it): on a credentialed connection the flag raised
    by [__connect] is still raised before every [send_message], so each
    request, the first after a (re)connect and any later one on the same
    live connection alike, goes out as exactly three writes: the getnonce
    command, the authenticate command built from the returned nonce, and
    then the caller's own bytes. *)
Theorem handshake_precedes_every_request (env : Env) (w : World)
    (message : Message) (cb : option Callback) (h1 b1 h2 b2 : bytes)
    (r1 r2 : Response) (nonce : Value) (sh : nat) :
  (forall tr, io_fault env tr = None) ->
  authenticate (conn w) = true ->
  alive (conn w) = true ->
  callback (conn w) = None ->
  stream (conn w) = Some sh ->
  let w1 := after (send_message env message cb) w in
  header_accepted h1 (conn w1) = true ->
  _unpack_response env b1 (request_id (conn w1)) = inr r1 ->
  reports_error r1 = false ->
  nonce_of r1 = Some nonce ->
  let w2 := after (deliver env h1 b1) w1 in
  header_accepted h2 (conn w2) = true ->
  _unpack_response env b2 (request_id (conn w2)) = inr r2 ->
  reports_error r2 = false ->
  auth_accepted r2 = true ->
  let w3 := after (deliver env h2 b2) w2 in
  exists id1 id2,
    writes (trace w3)
    = writes (trace w)
      ++ [encode_query env id1 0 (cmd_namespace (conn w)) 0 1 getnonce_command [];
          encode_query env id2 0 (cmd_namespace (conn w)) 0 1
            (authenticate_command (str_value (dbuser (conn w))) nonce
               (_auth_key env nonce (dbuser (conn w)) (dbpass (conn w)))) [];
          snd message]
    /\ callback (conn w3) = cb
    /\ deferred_message (conn w3) = None
    /\ alive (conn w3) = true
    /\ authenticate (conn w3) = true.
Proof.
  intros quiet Hauth Halive Hcb Hs w1 Ha1 Hr1 He1 Hn w2 Ha2 Hr2 He2 Hok w3.
  assert (E1 : w1 = getnonce_sent env w message cb).
  { unfold w1, after.
    rewrite (send_message_starts_handshake env quiet w message cb sh);
      auto. }
  assert (E2 : w2 = authenticate_sent env w1 h1 r1 nonce).
  { unfold w2, after.
    rewrite (deliver_nonce_reply env quiet w1 h1 b1 r1 nonce sh message);
      auto; rewrite E1; assumption || reflexivity. }
  assert (E3 : w3 = request_sent w2 h2 r2 message cb).
  { unfold w3, after.
    rewrite (deliver_authenticate_reply env quiet w2 h2 b2 r2 sh message cb);
      auto; rewrite E2, E1; assumption || reflexivity. }
  do 2 eexists.
  rewrite E3, E2, E1. unfold request_sent, authenticate_sent, getnonce_sent.
  cbv zeta.
  destruct cb; fields; rewrite !writes_app; cbn [writes];
    rewrite <- !app_assoc; cbn [app];
    (split; [reflexivity|]); repeat split; assumption.
Qed.

Lemma handshake_precedes_every_request_witness :
  authenticate (conn find_done) = true
  /\ alive (conn find_done) = true
  /\ callback (conn find_done) = None
  /\ usage_count (conn find_done) = 3
  /\ exists id1 id2,
       writes (trace second_done)
       = writes (trace find_done)
         ++ [encode_query sample_env id1 0 (cmd_namespace (conn find_done)) 0 1
               getnonce_command [];
             encode_query sample_env id2 0 (cmd_namespace (conn find_done)) 0 1
               (authenticate_command (str_value (dbuser (conn find_done)))
                  (VStr "abc")
                  (_auth_key sample_env (VStr "abc") (dbuser (conn find_done))
                     (dbpass (conn find_done)))) [];
             snd count_message].
Proof.
  repeat (split; [computed|]).
  destruct (handshake_precedes_every_request sample_env find_done count_message
              (Some (UserCallback 2)) (echo_header second_sent) some_body
              (echo_header second_auth) some_body sample_reply sample_reply
              (VStr "abc") 1%nat) as (id1 & id2 & Hw & _);
    try computed.
  exists id1, id2. exact Hw.
Defined.

(** C2 as the claim words it fails: on the same live connection, after a
    first request has completed, a second request is again preceded by
    the two authentication commands rather than by none. *)
Lemma second_request_reauthenticates :
  alive (conn find_done) = true
  /\ callback (conn find_done) = None
  /\ invocations (trace find_done)
     = [(StartAuthentication, Some sample_reply, None);
        (FinishAuthentication, Some sample_reply, None);
        (UserCallback 1, Some sample_reply, None)]
  /\ writes (added find_done second_done)
     = [list_byte_of_string "getnonce"; list_byte_of_string "authenticate";
        snd count_message]
  /\ sent_before (snd count_message) (writes (added find_done second_done))
     <> 0%nat.
Proof.
  repeat (split; [computed|]).
  vm_compute. discriminate.
Qed.

(** ** Further properties of the connection *)

(** *** The flag and the counter *)

Lemma flag_kept_close env : stable flag_kept (close env).
Proof.
  unfold close, _close, notify_closed.
  repeat flag_step env; apply flag_kept_invoke.
Qed.

(** X1: no entry point of the class lowers the authenticate flag: once it
    is raised it is still raised after [send_message], after a header or a
    body is handled, after a close from either side, after a timeout, after
    the connect notification and after a reconnect, whether the call
    returns or raises. *)
Theorem authenticate_never_lowered (env : Env) (w : World) (message : Message)
    (cb : option Callback) (header body : bytes) :
  authenticate (conn w) = true ->
  authenticate (conn (after (send_message env message cb) w)) = true
  /\ authenticate (conn (after (_parse_header env header) w)) = true
  /\ authenticate (conn (after (_parse_response env body) w)) = true
  /\ authenticate (conn (after (_socket_close env) w)) = true
  /\ authenticate (conn (after (close env) w)) = true
  /\ authenticate (conn (after (_on_timeout env) w)) = true
  /\ authenticate (conn (after (_on_connect env) w)) = true
  /\ authenticate (conn (after (__connect env) w)) = true.
Proof.
  intro H. unfold after.
  repeat split.
  - exact (flag_kept_send_message env message cb w H).
  - exact (flag_kept_parse_header env header w H).
  - exact (flag_kept_parse_response env body w H).
  - exact (flag_kept_socket_close env w H).
  - exact (flag_kept_close env w H).
  - exact (flag_kept_on_timeout env w H).
  - exact (flag_kept_on_connect env w H).
  - refine (stable_connect flag_kept _ _ _ _ _ env w H); flag_side.
Qed.

Lemma authenticate_never_lowered_witness :
  authenticate (conn find_pending) = true
  /\ authenticate (conn (after (_parse_response sample_env error_body) find_pending))
     = true
  /\ authenticate (conn (after (_on_timeout sample_env) find_pending)) = true.
Proof.
  split; [computed|].
  destruct (authenticate_never_lowered sample_env find_pending count_message None
              (echo_header find_pending) error_body)
    as (_ & _ & Hb & _ & _ & Ht & _); [computed|].
  split; [exact Hb | exact Ht].
Defined.

(** X2: [usage_count] counts attempts, not successes.  [_send_message]
    adds one before it touches the stream, so the count has grown by one
    however the call ends (a message of [None], a missing stream, a write
    or read that raises); [__connect] sets it to zero before it opens the
    socket, so it is zero after a failed connect as well. *)
Theorem usage_count_counts_attempts (env : Env) (w : World)
    (message : option Message) :
  usage_count (conn (after (_send_message env message) w))
  = usage_count (conn w) + 1
  /\ usage_count (conn (after (__connect env) w)) = 0.
Proof.
  unfold after. split.
  - unfold _send_message. step.
    destruct message as [[rid payload]|]; step; [|reflexivity].
    destruct (stream (conn w)) eqn:Hs; step; [|reflexivity].
    destruct (io_fault env (trace w ++ [EvWrite payload])) as [x|]; step.
    + destruct (is_IOError x); reflexivity.
    + destruct (callback (conn w)); step; [|reflexivity].
      use Hs.
      match goal with
      | |- context [io_fault env ?t] => destruct (io_fault env t) as [x|]
      end; step; [destruct (is_IOError x)|]; reflexivity.
  - unfold __connect. step.
    destruct (io_fault env (trace w ++ [EvSocket])) as [x|]; step.
    + destruct (is_socket_error x); reflexivity.
    + destruct (is_tornado (backend_class (conn w))); step.
      * destruct (negb (min_timeout (conn w) =? 0)); step;
          match goal with
          | |- context [io_fault env ?t] => destruct (io_fault env t) as [x|]
          end; step; try destruct (is_socket_error x); step;
          try destruct (has_credentials _); reflexivity.
      * match goal with
        | |- context [io_fault env ?t] => destruct (io_fault env t) as [x|]
        end; step; try destruct (is_socket_error x); step;
        try destruct (has_credentials _); reflexivity.
Qed.

(** *** Sending on a connection that is not alive *)

(** X3: with [autoreconnect=False] a [send_message] on a connection that is
    not alive raises [InterfaceError] and does nothing else: no reconnect,
    no write, and neither the message nor the completion is stored. *)
Theorem send_message_refuses_dead (env : Env) (w : World) (message : Message)
    (cb : option Callback) :
  callback (conn w) = None ->
  alive (conn w) = false ->
  autoreconnect (conn w) = false ->
  send_message env message cb w
  = (Raise (InterfaceError (PStr "connection invalid. autoreconnect=False")), w).
Proof.
  intros Hcb Ha Hr. unfold send_message. step. use Hcb. use Ha. use Hr.
  reflexivity.
Qed.

Lemma send_message_refuses_dead_witness :
  callback (conn manual_closed) = None
  /\ alive (conn manual_closed) = false
  /\ autoreconnect (conn manual_closed) = false
  /\ send_message sample_env find_message (Some (UserCallback 1)) manual_closed
     = (Raise (InterfaceError (PStr "connection invalid. autoreconnect=False")),
        manual_closed).
Proof.
  repeat (split; [computed|]).
  apply (send_message_refuses_dead sample_env manual_closed find_message
           (Some (UserCallback 1))); computed.
Defined.

(** X4: with [autoreconnect=True] a [send_message] on a connection that is
    not alive reconnects first, and when the socket cannot be created the
    [InterfaceError] of [__connect] leaves [send_message] at once: nothing
    is written, the completion is not registered and the request is not
    deferred. *)
Theorem send_message_reconnect_failure (env : Env) (w : World)
    (message : Message) (cb : option Callback) (n : Z) :
  callback (conn w) = None ->
  alive (conn w) = false ->
  autoreconnect (conn w) = true ->
  io_fault env (trace w ++ [EvSocket]) = Some (SocketError n) ->
  send_message env message cb w
  = (Raise (InterfaceError (PExn (SocketError n))),
     mkWorld (set_start_time (time_time env (trace w))
                (set_usage_count 0 (conn w)))
       (trace w ++ [EvSocket])).
Proof.
  intros Hcb Ha Hr F. unfold send_message. step. use Hcb. use Ha. use Hr.
  unfold __connect. step. use F. reflexivity.
Qed.

Lemma send_message_reconnect_failure_witness :
  callback (conn plain_closed) = None
  /\ alive (conn plain_closed) = false
  /\ autoreconnect (conn plain_closed) = true
  /\ io_fault refusing_env (trace plain_closed ++ [EvSocket])
     = Some (SocketError 111)
  /\ send_message refusing_env find_message (Some (UserCallback 1)) plain_closed
     = (Raise (InterfaceError (PExn (SocketError 111))),
        mkWorld (set_start_time (time_time refusing_env (trace plain_closed))
                   (set_usage_count 0 (conn plain_closed)))
          (trace plain_closed ++ [EvSocket])).
Proof.
  repeat (split; [computed|]).
  apply (send_message_reconnect_failure refusing_env plain_closed find_message
           (Some (UserCallback 1)) 111); computed.
Defined.

(** *** Transport failures while a request is in flight *)



(** X6: when the body read that [_parse_header] submits raises an
    [IOError], the connection is marked not alive and the exception is
    re-raised; the completion stays registered and is not told. *)
Theorem body_read_failure (env : Env) (w : World) (header : bytes) (h : nat)
    (x : Exn) :
  stream (conn w) = Some h ->
  header_accepted header (conn w) = true ->
  io_fault env (trace w ++ [EvRead (header_length header - 16) ParseResponse])
  = Some x ->
  is_IOError x = true ->
  _parse_header env header w
  = (Raise x,
     mkWorld (set_alive false (conn w))
       (trace w ++ [EvRead (header_length header - 16) ParseResponse])).
Proof.
  intros Hs Ha F Hx.
  destruct (header_accepted_fields header (conn w) Ha)
    as (len & rid & op & E1 & E2 & E3 & Hid & -> & <-).
  revert F. unfold header_length. rewrite E1. intro F.
  unfold _parse_header. step. use E1. use E2.
  use (header_accepted_has_id header (conn w) Ha). use Hid. use E3.
  change (1 =? 1) with true. step. use Hs. use F. use Hx. reflexivity.
Qed.

Lemma body_read_failure_witness :
  stream (conn plain_pending) = Some 1%nat
  /\ header_accepted (echo_header plain_pending) (conn plain_pending) = true
  /\ callback (conn plain_pending) = Some (UserCallback 1)
  /\ _parse_header closed_stream_env (echo_header plain_pending) plain_pending
     = (Raise (IOError 9),
        mkWorld (set_alive false (conn plain_pending))
          (trace plain_pending
           ++ [EvRead (header_length (echo_header plain_pending) - 16)
                 ParseResponse])).
Proof.
  repeat (split; [computed|]).
  apply (body_read_failure closed_stream_env plain_pending
           (echo_header plain_pending) 1%nat (IOError 9)); computed.
Defined.

(** *** Headers that cannot be accepted *)

Lemma unpack_le_i32_length (bs : bytes) (z : Z) :
  unpack_le_i32 bs = Some z -> List.length bs = 4%nat.
Proof.
  destruct bs as [|b0 [|b1 [|b2 [|b3 [|? ?]]]]]; try discriminate.
  reflexivity.
Qed.

(** X7: a header that is not exactly 16 bytes long is never accepted:
    [_parse_header] raises, issues no read and leaves the connection as it
    was.  The exception is [struct.error] or [AssertionError] on a
    connection whose request id exists; on one that has never sent, the
    read of the missing attribute raises [AttributeError] once the first
    two fields have been unpacked. *)
Theorem parse_header_wrong_length (env : Env) (w : World) (header : bytes) :
  List.length header <> 16%nat ->
  exists e,
    _parse_header env header w = (Raise e, w)
    /\ (if has_request_id (conn w)
        then e = StructError \/ e = AssertionError
        else e = StructError \/ e = AttributeError).
Proof.
  intro L. unfold _parse_header. step.
  destruct (unpack_le_i32 (firstn 4 header)) as [len|] eqn:E1; step;
    [|exists StructError; split; [reflexivity|];
      destruct (has_request_id (conn w)); left; reflexivity].
  destruct (unpack_le_i32 (firstn 4 (skipn 8 header))) as [rid|] eqn:E2; step;
    [|exists StructError; split; [reflexivity|];
      destruct (has_request_id (conn w)); left; reflexivity].
  destruct (has_request_id (conn w)); step;
    [|exists AttributeError; split; [reflexivity | right; reflexivity]].
  destruct (id_matches rid (request_id (conn w))); step;
    [|exists AssertionError; split; [reflexivity | right; reflexivity]].
  destruct (unpack_le_i32 (skipn 12 header)) as [op|] eqn:E3; step;
    [|exists StructError; split; [reflexivity | left; reflexivity]].
  exfalso. apply L.
  apply unpack_le_i32_length in E2, E3.
  rewrite length_skipn in E3.
  rewrite length_firstn, length_skipn in E2. lia.
Qed.

Lemma parse_header_wrong_length_witness :
  List.length (firstn 12 (echo_header plain_pending)) <> 16%nat
  /\ has_request_id (conn plain_world) = false
  /\ exists e,
       _parse_header sample_env (firstn 12 (echo_header plain_pending)) plain_world
       = (Raise e, plain_world)
       /\ (if has_request_id (conn plain_world)
           then e = StructError \/ e = AssertionError
           else e = StructError \/ e = AttributeError).
Proof.
  assert (L : List.length (firstn 12 (echo_header plain_pending)) <> 16%nat)
    by (vm_compute; discriminate).
  split; [exact L|]. split; [computed|].
  exact (parse_header_wrong_length sample_env plain_world _ L).
Defined.

(** X8: 16-byte headers that no connection state lets through.  On a
    connection that has never sent, [self.__request_id] does not exist and
    [_parse_header] raises [AttributeError].  Where it exists, the
    correlator is compared as a signed 32-bit integer, so a stored id of
    [None] or one outside that range is never matched and the first
    assertion fails.  Nothing is changed and no read is issued. *)
Theorem parse_header_unmatchable_id (env : Env) (w : World) (header : bytes) :
  List.length header = 16%nat ->
  (has_request_id (conn w) = false ->
   _parse_header env header w = (Raise AttributeError, w))
  /\ (has_request_id (conn w) = true ->
      match request_id (conn w) with
      | None => True
      | Some r => r < - 2147483648 \/ 2147483648 <= r
      end ->
      _parse_header env header w = (Raise AssertionError, w)).
Proof.
  intro L.
  destruct (header_16_fields header L) as (len & rid & op & E1 & E2 & E3).
  split.
  - intro Hhas. unfold _parse_header. step. use E1. use E2. use Hhas.
    reflexivity.
  - intros Hhas R. unfold _parse_header. step. use E1. use E2. use Hhas.
    assert (M : id_matches rid (request_id (conn w)) = false).
    { unfold id_matches. destruct (request_id (conn w)) as [r|]; [|reflexivity].
      apply unpack_le_i32_range in E2. apply Z.eqb_neq. lia. }
    use M. reflexivity.
Qed.

Lemma parse_header_unmatchable_id_witness :
  List.length (echo_header wide_pending) = 16%nat
  /\ has_request_id (conn plain_world) = false
  /\ _parse_header sample_env (echo_header wide_pending) plain_world
     = (Raise AttributeError, plain_world)
  /\ has_request_id (conn wide_pending) = true
  /\ request_id (conn wide_pending) = Some 2147483648
  /\ _parse_header sample_env (echo_header wide_pending) wide_pending
     = (Raise AssertionError, wide_pending).
Proof.
  assert (L : List.length (echo_header wide_pending) = 16%nat) by computed.
  split; [exact L|]. split; [computed|].
  split.
  - apply (proj1 (parse_header_unmatchable_id sample_env plain_world
                    (echo_header wide_pending) L)). computed.
  - do 2 (split; [computed|]).
    apply (proj2 (parse_header_unmatchable_id sample_env wide_pending
                    (echo_header wide_pending) L)); [computed|].
    vm_compute. right. discriminate.
Defined.

(** *** A request on a connection without credentials *)

(** X9: one complete request on a live connection that needs no
    authentication.  [send_message] writes the caller's bytes and asks for
    the 16-byte header; the header asks for the rest; the body re-caches
    the connection and then calls the completion once with the decoded
    response.  Afterwards the connection is idle again, has counted one
    use, and neither its timer handle nor any timer was touched. *)
Theorem plain_request_cycle (env : Env) (w : World) (message : Message)
    (k : nat) (header body : bytes) (r : Response) (sh : nat) :
  (forall tr, io_fault env tr = None) ->
  authenticate (conn w) = false ->
  alive (conn w) = true ->
  callback (conn w) = None ->
  deferred_message (conn w) = None ->
  stream (conn w) = Some sh ->
  header_accepted header (set_request_id (Some (fst message)) (conn w)) = true ->
  _unpack_response env body (Some (fst message)) = inr r ->
  reports_error r = false ->
  (send_message env message (Some (UserCallback k)) ;; deliver env header body) w
  = (Ok tt,
     mkWorld
       (set_callback None
          (set_request_id None
             (set_usage_count (usage_count (conn w) + 1) (conn w))))
       (trace w
        ++ [EvWrite (snd message); EvRead 16 ParseHeader;
            EvRead (header_length header - 16) ParseResponse;
            EvCache; EvInvoke (UserCallback k) (Some r) None])).
Proof.
  intros quiet Hauth Halive Hcb Hd Hs Ha Hr He.
  destruct message as [rid payload]. cbn [fst snd] in *.
  unfold bind at 1.
  assert (E : send_message env (rid, payload) (Some (UserCallback k)) w
              = (Ok tt,
                 mkWorld (set_request_id (Some rid)
                            (set_usage_count (usage_count (conn w) + 1)
                               (set_callback (Some (UserCallback k)) (conn w))))
                   (trace w ++ [EvWrite payload; EvRead 16 ParseHeader]))).
  { unfold send_message. step. use Hcb. use Halive. use Hauth.
    rewrite (send_quiet env quiet _ rid payload sh); [|exact Hs].
    reflexivity. }
  rewrite E. unfold deliver, bind.
  rewrite (parse_header_quiet env quiet _ header sh); [|exact Hs|exact Ha].
  rewrite (parse_response_pending env _ body (UserCallback k));
    [|reflexivity|reflexivity].
  cbv zeta. fields. rewrite Hd, Hr, He.
  unfold invoke. step. rewrite <- !app_assoc. reflexivity.
Qed.

Lemma plain_request_cycle_witness :
  authenticate (conn plain_world) = false
  /\ header_accepted (echo_header plain_pending)
       (set_request_id (Some (fst find_message)) (conn plain_world)) = true
  /\ (send_message sample_env find_message (Some (UserCallback 1)) ;;
      deliver sample_env (echo_header plain_pending) some_body) plain_world
     = (Ok tt,
        mkWorld
          (set_callback None
             (set_request_id None
                (set_usage_count (usage_count (conn plain_world) + 1)
                   (conn plain_world))))
          (trace plain_world
           ++ [EvWrite (snd find_message); EvRead 16 ParseHeader;
               EvRead (header_length (echo_header plain_pending) - 16)
                 ParseResponse;
               EvCache; EvInvoke (UserCallback 1) (Some sample_reply) None])).
Proof.
  repeat (split; [computed|]).
  apply (plain_request_cycle sample_env plain_world find_message 1%nat
           (echo_header plain_pending) some_body sample_reply 1%nat); computed.
Defined.

(** *** Replies the handshake does not accept *)

(** X10: an authenticate reply whose [ok] is not 1.  The reply handler
    raises [AuthenticationError] carrying the server's [errmsg]; the
    deferred pair is dropped, the caller's completion is never called,
    nothing more is written, and the connection, idle again, is not handed
    back to the pool. *)
Theorem rejected_authentication (env : Env) (w : World) (body : bytes)
    (r : Response) (d : Document) (rest : list Document) (ok errmsg : Value)
    (message : Message) :
  callback (conn w) = Some FinishAuthentication ->
  has_request_id (conn w) = true ->
  deferred_message (conn w) = Some message ->
  _unpack_response env body (request_id (conn w)) = inr r ->
  reports_error r = false ->
  number_returned r = 1 ->
  data r = d :: rest ->
  doc_get "ok" d = Some ok ->
  value_ne_1 ok = true ->
  doc_get "errmsg" d = Some errmsg ->
  _parse_response env body w
  = (Raise (AuthenticationError (PVal errmsg)),
     mkWorld
       (set_deferred_callback None
          (set_deferred_message None
             (set_callback None (set_request_id None (conn w)))))
       (trace w ++ [EvInvoke FinishAuthentication (Some r) None; EvLog])).
Proof.
  intros Hcb Hhas Hd Hr He Hn Hdata Hok Hne Hmsg.
  rewrite (parse_response_pending env w body FinishAuthentication Hcb Hhas).
  cbv zeta. rewrite Hd, Hr, He. rewrite app_nil_r.
  unfold invoke. step.
  rewrite (finish_authentication_rejected_clears env _ r d rest ok errmsg
             Hn Hdata Hok Hne Hmsg).
  fields. rewrite <- !app_assoc. reflexivity.
Qed.

Lemma rejected_authentication_witness :
  callback (conn auth_pending) = Some FinishAuthentication
  /\ has_request_id (conn auth_pending) = true
  /\ deferred_message (conn auth_pending) = Some find_message
  /\ _parse_response (decoding_env rejected_reply) some_body auth_pending
     = (Raise (AuthenticationError (PVal (VStr "auth fails"))),
        mkWorld
          (set_deferred_callback None
             (set_deferred_message None
                (set_callback None (set_request_id None (conn auth_pending)))))
          (trace auth_pending
           ++ [EvInvoke FinishAuthentication (Some rejected_reply) None; EvLog])).
Proof.
  do 3 (split; [computed|]).
  apply (rejected_authentication (decoding_env rejected_reply) auth_pending
           some_body rejected_reply
           [("ok", VInt 0); ("errmsg", VStr "auth fails")] []
           (VInt 0) (VStr "auth fails") find_message); computed.
Defined.

(** X11: a nonce reply that decodes but carries no nonce (no document at
    all, or a first document without the key).  [_start_authentication]
    raises [IndexError] or [KeyError]; no authenticate command is sent, the
    completion slot is empty, and the caller's request stays in the
    deferred pair without ever being sent or failed. *)
Theorem nonce_reply_without_nonce (env : Env) (w : World) (body : bytes)
    (r : Response) (message : Message) :
  callback (conn w) = Some StartAuthentication ->
  has_request_id (conn w) = true ->
  deferred_message (conn w) = Some message ->
  _unpack_response env body (request_id (conn w)) = inr r ->
  reports_error r = false ->
  nonce_of r = None ->
  exists e,
    (e = IndexError \/ e = KeyError "nonce")
    /\ _parse_response env body w
       = (Raise e,
          mkWorld (set_callback None (set_request_id None (conn w)))
            (trace w ++ [EvInvoke StartAuthentication (Some r) None])).
Proof.
  intros Hcb Hhas Hd Hr He Hn.
  rewrite (parse_response_pending env w body StartAuthentication Hcb Hhas).
  cbv zeta. rewrite Hd, Hr, He. rewrite app_nil_r.
  unfold invoke, _start_authentication. step.
  unfold nonce_of in Hn. destruct (data r) as [|d rest].
  - exists IndexError. split; [left; reflexivity | reflexivity].
  - rewrite Hn. exists (KeyError "nonce"). split; [right; reflexivity | reflexivity].
Qed.

Lemma nonce_reply_without_nonce_witness :
  callback (conn nonce_pending) = Some StartAuthentication
  /\ has_request_id (conn nonce_pending) = true
  /\ deferred_message (conn nonce_pending) = Some find_message
  /\ nonce_of empty_reply = None
  /\ exists e,
       (e = IndexError \/ e = KeyError "nonce")
       /\ _parse_response (decoding_env empty_reply) some_body nonce_pending
          = (Raise e,
             mkWorld (set_callback None (set_request_id None (conn nonce_pending)))
               (trace nonce_pending
                ++ [EvInvoke StartAuthentication (Some empty_reply) None])).
Proof.
  do 4 (split; [computed|]).
  apply (nonce_reply_without_nonce (decoding_env empty_reply) nonce_pending
           some_body empty_reply find_message); computed.
Defined.

(** X12: a document that has an ["err"] but whose ["code"] is missing or
    falsy (0, [None], an empty string), or the other way round, is not a
    server-reported failure for [_parse_response]: the completion gets the
    response and no error.  The same holds for a reply with no document. *)
Theorem falsy_error_fields_are_success (env : Env) (w : World) (body : bytes)
    (cb : Callback) (r : Response) :
  callback (conn w) = Some cb ->
  has_request_id (conn w) = true ->
  _unpack_response env body (request_id (conn w)) = inr r ->
  match data r with
  | [] => True
  | d :: _ => get_truthy "err" d = false \/ get_truthy "code" d = false
  end ->
  invocations (trace (snd (_parse_response env body w)))
  = invocations (trace w) ++ [(cb, Some r, None)].
Proof.
  intros Hcb Hhas Hr Hf.
  assert (E : reports_error r = false).
  { unfold reports_error. destruct (data r) as [|d rest]; [reflexivity|].
    destruct Hf as [-> | ->]; [reflexivity | apply andb_false_r]. }
  rewrite (parse_response_pending env w body cb Hcb Hhas). cbv zeta.
  rewrite Hr, E. rewrite invoke_invocations. cbn [trace].
  rewrite !invocations_app.
  destruct (deferred_message (conn w)); cbn [invocations];
    rewrite ?app_nil_r; reflexivity.
Qed.

Lemma falsy_error_fields_are_success_witness :
  callback (conn find_pending) = Some (UserCallback 1)
  /\ has_request_id (conn find_pending) = true
  /\ get_truthy "err" [("err", VStr "E"); ("code", VInt 0)] = true
  /\ get_truthy "code" [("err", VStr "E"); ("code", VInt 0)] = false
  /\ invocations
       (trace (snd (_parse_response (decoding_env zero_code_reply) some_body
                      find_pending)))
     = invocations (trace find_pending)
       ++ [(UserCallback 1, Some zero_code_reply, None)].
Proof.
  do 4 (split; [computed|]).
  apply (falsy_error_fields_are_success (decoding_env zero_code_reply)
           find_pending some_body (UserCallback 1) zero_code_reply);
    [computed | computed | computed | right; computed].
Defined.

(** *** Connecting and reconnecting *)

(** With no transport fault [__connect] returns, and leaves exactly the
    world [connected] describes. *)
Lemma connect_quiet env w :
  (forall tr, io_fault env tr = None) ->
  __connect env w = (Ok tt, connected env w).
Proof.
  intro quiet. unfold __connect, connected. step. rewrite quiet. step.
  destruct (is_tornado (backend_class (conn w))); step.
  - destruct (negb (min_timeout (conn w) =? 0)); step; rewrite quiet; step;
      destruct (has_credentials (conn w)) eqn:C; unfold has_credentials in *;
      fields; rewrite C; step; rewrite <- !app_assoc; try reflexivity.
    all: destruct (conn w); reflexivity.
  - rewrite quiet. step.
    destruct (has_credentials (conn w)) eqn:C; unfold has_credentials in *;
      fields; rewrite C; step; rewrite <- !app_assoc; try reflexivity.
    all: destruct (conn w); reflexivity.
Qed.

(** X13: the authenticate flag after construction.  When
    [Connection(...)] returns, the flag is raised exactly when both the
    user name and the password are given and non-empty; so a connection
    created with an empty password (or only one of the two) sends its
    requests unauthenticated.  The new connection is alive, idle, and has
    counted no use. *)
Theorem init_authenticates_iff_credentials (env : Env) (host' : string)
    (port' connect_timeout request_timeout' : Z) (dbuser' dbpass' : option string)
    (autoreconnect' : bool) (dbname' : string) (backend : Backend) (w' : World) :
  __init__ env host' port' connect_timeout request_timeout' dbuser' dbpass'
    autoreconnect' dbname' backend = (Ok tt, w') ->
  authenticate (conn w')
  = match dbuser', dbpass' with
    | Some u, Some p => negb (String.eqb u "") && negb (String.eqb p "")
    | _, _ => false
    end
  /\ alive (conn w') = true
  /\ callback (conn w') = None
  /\ deferred_message (conn w') = None
  /\ usage_count (conn w') = 0.
Proof.
  unfold __init__, __connect, initial. step.
  match goal with
  | |- context [io_fault env ?t] => destruct (io_fault env t) as [x|]
  end; step.
  - destruct (is_socket_error x); discriminate.
  - destruct (is_tornado backend); step.
    + destruct (negb (Z.min connect_timeout request_timeout' =? 0)); step;
        match goal with
        | |- context [io_fault env ?t] => destruct (io_fault env t) as [x|]
        end; step; try (destruct (is_socket_error x); discriminate);
        unfold has_credentials; fields;
        destruct dbuser' as [u|]; destruct dbpass' as [p|]; step;
        try destruct (negb (String.eqb u "") && negb (String.eqb p ""));
        step; intro H; injection H as <-; repeat split.
    + match goal with
      | |- context [io_fault env ?t] => destruct (io_fault env t) as [x|]
      end; step; try (destruct (is_socket_error x); discriminate);
      unfold has_credentials; fields;
      destruct dbuser' as [u|]; destruct dbpass' as [p|]; step;
      try destruct (negb (String.eqb u "") && negb (String.eqb p ""));
      step; intro H; injection H as <-; repeat split.
Qed.

Lemma init_authenticates_iff_credentials_witness :
  __init__ sample_env "localhost" 27017 20 20 (Some "user") (Some "") true "test"
    ASYNC_BACKEND_TORNADO = (Ok tt, empty_password_world)
  /\ authenticate (conn empty_password_world)
     = negb (String.eqb "user" "") && negb (String.eqb "" "")
  /\ authenticate (conn empty_password_world) = false.
Proof.
  assert (E : __init__ sample_env "localhost" 27017 20 20 (Some "user") (Some "")
                true "test" ASYNC_BACKEND_TORNADO = (Ok tt, empty_password_world))
    by computed.
  split; [exact E|]. split; [|computed].
  exact (proj1 (init_authenticates_iff_credentials sample_env "localhost" 27017
                  20 20 (Some "user") (Some "") true "test"
                  ASYNC_BACKEND_TORNADO empty_password_world E)).
Defined.

(** X14: a [send_message] on an idle connection that is not alive, with
    [autoreconnect=True] and a transport that does not fail, is the same
    [send_message] issued on the reconnected connection: it returns, it has
    opened exactly one new socket first, and ends in the world the send
    reaches from [connected]. *)
Theorem send_message_reconnects_first (env : Env) (w : World)
    (message : Message) (cb : option Callback) :
  (forall tr, io_fault env tr = None) ->
  callback (conn w) = None ->
  alive (conn w) = false ->
  autoreconnect (conn w) = true ->
  send_message env message cb w = send_message env message cb (connected env w)
  /\ alive (conn (connected env w)) = true
  /\ usage_count (conn (connected env w)) = 0
  /\ sockets_opened (trace (connected env w)) = S (sockets_opened (trace w)).
Proof.
  intros quiet Hcb Ha Hr.
  assert (Hcb' : callback (conn (connected env w)) = None).
  { unfold connected. destruct (is_tornado (backend_class (conn w)));
      fields; exact Hcb. }
  assert (Ha' : alive (conn (connected env w)) = true).
  { unfold connected. destruct (is_tornado (backend_class (conn w)));
      reflexivity. }
  split; [|split; [exact Ha'|split]].
  - unfold send_message at 1. step. use Hcb. use Ha. use Hr.
    rewrite (connect_quiet env w quiet). fields.
    unfold send_message. step. rewrite Hcb'. rewrite Ha'. step. reflexivity.
  - unfold connected. destruct (is_tornado (backend_class (conn w)));
      reflexivity.
  - unfold connected. destruct (is_tornado (backend_class (conn w))); fields.
    + destruct (negb (min_timeout (conn w) =? 0));
        rewrite !sockets_opened_app; cbn [sockets_opened]; lia.
    + rewrite !sockets_opened_app; cbn [sockets_opened]; lia.
Qed.

Lemma send_message_reconnects_first_witness :
  callback (conn plain_closed) = None
  /\ alive (conn plain_closed) = false
  /\ autoreconnect (conn plain_closed) = true
  /\ send_message sample_env find_message (Some (UserCallback 1)) plain_closed
     = send_message sample_env find_message (Some (UserCallback 1))
         (connected sample_env plain_closed).
Proof.
  assert (Hcb : callback (conn plain_closed) = None) by computed.
  assert (Ha : alive (conn plain_closed) = false) by computed.
  assert (Hr : autoreconnect (conn plain_closed) = true) by computed.
  do 3 (split; [assumption|]).
  exact (proj1 (send_message_reconnects_first sample_env plain_closed find_message
                  (Some (UserCallback 1)) (fun _ => eq_refl) Hcb Ha Hr)).
Defined.

(** *** What the hidden handshake costs *)

Lemma cache_calls_app (a b : Trace) :
  cache_calls (a ++ b) = (cache_calls a + cache_calls b)%nat.
Proof.
  induction a as [|e a IH]; simpl; [reflexivity|].
  destruct e; simpl; rewrite ?IH; reflexivity.
Qed.

(** X15: the bookkeeping of a successful handshake.  By the time the
    caller's own bytes are on the wire the connection has counted three
    uses, each of the two internal completions has been called once and
    the caller's not at all, the four reads issued so far belong to the two
    handshake replies, and the pool has not been told anything, unless the
    request is fire-and-forget: then the connection is re-cached once, after
    the last write, and no reply to the caller's request is awaited. *)
Theorem handshake_accounting (env : Env) (w : World) (message : Message)
    (cb : option Callback) (h1 b1 h2 b2 : bytes) (r1 r2 : Response)
    (nonce : Value) (sh : nat) :
  (forall tr, io_fault env tr = None) ->
  authenticate (conn w) = true ->
  alive (conn w) = true ->
  callback (conn w) = None ->
  stream (conn w) = Some sh ->
  let w1 := after (send_message env message cb) w in
  header_accepted h1 (conn w1) = true ->
  _unpack_response env b1 (request_id (conn w1)) = inr r1 ->
  reports_error r1 = false ->
  nonce_of r1 = Some nonce ->
  let w2 := after (deliver env h1 b1) w1 in
  header_accepted h2 (conn w2) = true ->
  _unpack_response env b2 (request_id (conn w2)) = inr r2 ->
  reports_error r2 = false ->
  auth_accepted r2 = true ->
  let w3 := after (deliver env h2 b2) w2 in
  usage_count (conn w3) = usage_count (conn w) + 3
  /\ invocations (trace w3)
     = invocations (trace w)
       ++ [(StartAuthentication, Some r1, None);
           (FinishAuthentication, Some r2, None)]
  /\ reads (trace w3)
     = reads (trace w)
       ++ [(16, ParseHeader); (header_length h1 - 16, ParseResponse);
           (16, ParseHeader); (header_length h2 - 16, ParseResponse)]
       ++ match cb with Some _ => [(16, ParseHeader)] | None => [] end
  /\ cache_calls (trace w3)
     = (cache_calls (trace w) + match cb with Some _ => 0 | None => 1 end)%nat
  /\ request_id (conn w3)
     = match cb with Some _ => Some (fst message) | None => None end.
Proof.
  intros quiet Hauth Halive Hcb Hs w1 Ha1 Hr1 He1 Hn w2 Ha2 Hr2 He2 Hok w3.
  assert (E1 : w1 = getnonce_sent env w message cb).
  { unfold w1, after.
    rewrite (send_message_starts_handshake env quiet w message cb sh);
      auto. }
  assert (E2 : w2 = authenticate_sent env w1 h1 r1 nonce).
  { unfold w2, after.
    rewrite (deliver_nonce_reply env quiet w1 h1 b1 r1 nonce sh message);
      auto; rewrite E1; assumption || reflexivity. }
  assert (E3 : w3 = request_sent w2 h2 r2 message cb).
  { unfold w3, after.
    rewrite (deliver_authenticate_reply env quiet w2 h2 b2 r2 sh message cb);
      auto; rewrite E2, E1; assumption || reflexivity. }
  rewrite E3, E2, E1. unfold request_sent, authenticate_sent, getnonce_sent.
  cbv zeta.
  destruct cb; fields;
    rewrite !invocations_app, !reads_app, !cache_calls_app;
    cbn [invocations reads cache_calls app];
    rewrite ?app_nil_r, <- ?app_assoc; cbn [app];
    repeat split; lia.
Qed.

Lemma handshake_accounting_witness :
  authenticate (conn find_done) = true
  /\ callback (conn find_done) = None
  /\ usage_count (conn forget_done) = usage_count (conn find_done) + 3
  /\ cache_calls (trace forget_done) = (cache_calls (trace find_done) + 1)%nat
  /\ request_id (conn forget_done) = None.
Proof.
  do 2 (split; [computed|]).
  destruct (handshake_accounting sample_env find_done count_message None
              (echo_header forget_sent) some_body (echo_header forget_auth)
              some_body sample_reply sample_reply (VStr "abc") 1%nat)
    as (Hu & _ & _ & Hc & Hid); try computed.
  split; [exact Hu|]. split; [exact Hc | exact Hid].
Defined.

(** *** Closing *)

(** X16: the peer closes the socket while nothing or a caller's completion
    is pending.  [_socket_close] calls that completion once with
    [InterfaceError('connection closed')], clears it, marks the connection
    not alive and re-caches it; it does not close the stream itself and it
    cannot raise. *)
Theorem socket_close_notifies (env : Env) (w : World) :
  match callback (conn w) with
  | Some (UserCallback _) | None => True
  | _ => False
  end ->
  _socket_close env w
  = (Ok tt,
     mkWorld (set_alive false (set_callback None (conn w)))
       (trace w
        ++ match callback (conn w) with
           | Some cb => [EvInvoke cb None (Some connection_closed)]
           | None => []
           end
        ++ [EvCache])).
Proof.
  intro H. unfold _socket_close, notify_closed. step.
  destruct (callback (conn w)) as [[k| |]|]; try contradiction.
  - unfold invoke. step. rewrite <- !app_assoc. reflexivity.
  - step. reflexivity.
Qed.

Lemma socket_close_notifies_witness :
  callback (conn plain_pending) = Some (UserCallback 1)
  /\ _socket_close sample_env plain_pending
     = (Ok tt,
        mkWorld (set_alive false (set_callback None (conn plain_pending)))
          (trace plain_pending
           ++ match callback (conn plain_pending) with
              | Some cb => [EvInvoke cb None (Some connection_closed)]
              | None => []
              end
           ++ [EvCache])).
Proof.
  split; [computed|].
  apply (socket_close_notifies sample_env plain_pending).
  vm_compute. exact I.
Defined.

(** X17: the peer closes the socket while a handshake reply is
    outstanding.  The pending completion is then one of the two handshake
    continuations, which raise [AuthenticationError] when handed the
    [InterfaceError]; the exception leaves [_socket_close] before its
    cleanup, so the connection is still marked alive, still has that
    completion registered, and is not re-cached.  Only
    [_finish_authentication] drops the deferred pair on the way. *)
Theorem peer_close_during_handshake (env : Env) (w : World) :
  (callback (conn w) = Some StartAuthentication ->
   _socket_close env w
   = (Raise (AuthenticationError (PExn connection_closed)),
      mkWorld (conn w)
        (trace w ++ [EvInvoke StartAuthentication None (Some connection_closed);
                     EvLog; EvLog])))
  /\ (callback (conn w) = Some FinishAuthentication ->
      _socket_close env w
      = (Raise (AuthenticationError (PExn connection_closed)),
         mkWorld (set_deferred_callback None (set_deferred_message None (conn w)))
           (trace w
            ++ [EvInvoke FinishAuthentication None (Some connection_closed)]))).
Proof.
  split; intro H; unfold _socket_close, notify_closed; step; use H;
    unfold invoke, _start_authentication, _finish_authentication; step;
    rewrite <- ?app_assoc; reflexivity.
Qed.

Lemma peer_close_during_handshake_witness :
  callback (conn auth_pending) = Some FinishAuthentication
  /\ alive (conn auth_pending) = true
  /\ _socket_close sample_env auth_pending
     = (Raise (AuthenticationError (PExn connection_closed)),
        mkWorld (set_deferred_callback None
                   (set_deferred_message None (conn auth_pending)))
          (trace auth_pending
           ++ [EvInvoke FinishAuthentication None (Some connection_closed)])).
Proof.
  do 2 (split; [computed|]).
  apply (proj2 (peer_close_during_handshake sample_env auth_pending)). computed.
Defined.

(** *** Timers *)

Lemma timer_calls_app (a b : Trace) :
  timer_calls (a ++ b) = (timer_calls a + timer_calls b)%nat.
Proof.
  induction a as [|e a IH]; simpl; [reflexivity|].
  destruct e; simpl; rewrite ?IH; reflexivity.
Qed.

Lemma same_timers_refl w : same_timers w w.
Proof. reflexivity. Qed.

Lemma same_timers_trans a b c :
  same_timers a b -> same_timers b c -> same_timers a c.
Proof. unfold same_timers. congruence. Qed.

Lemma timers_modify f : stable same_timers (modify f).
Proof. intro w. reflexivity. Qed.

Lemma timers_emit e : not_timer e -> stable same_timers (emit e).
Proof.
  intros H w. unfold same_timers. cbn [emit snd trace].
  rewrite timer_calls_app. destruct e; try contradiction; cbn [timer_calls]; lia.
Qed.

Lemma timers_io env e : not_timer e -> stable same_timers (io env e).
Proof.
  intros H w. unfold same_timers, io.
  destruct (io_fault env (trace w ++ [e])); cbn [snd trace];
    rewrite timer_calls_app; destruct e; try contradiction;
    cbn [timer_calls]; lia.
Qed.

Ltac timers_step :=
  match goal with
  | |- stable _ (bind _ _) => apply stable_bind; [exact same_timers_trans | | intro]
  | |- stable _ (try_except _ _ _) =>
      apply stable_try_except; [exact same_timers_trans | | intro]
  | |- stable _ (ret _) => apply stable_ret; exact same_timers_refl
  | |- stable _ (raise _) => apply stable_raise; exact same_timers_refl
  | |- stable _ get => apply stable_get; exact same_timers_refl
  | |- stable _ history => apply stable_history; exact same_timers_refl
  | |- stable _ (modify _) => apply timers_modify
  | |- stable _ (emit _) => apply timers_emit; exact I
  | |- stable _ (io _ _) => apply timers_io; exact I
  | |- stable _ io_loop => unfold io_loop
  | |- stable _ read_request_id => unfold read_request_id
  | |- stable _ (match ?x with _ => _ end) => destruct x
  end.

Lemma timers_send env message : stable same_timers (_send_message env message).
Proof.
  unfold _send_message, stream_call. repeat timers_step.
Qed.

Lemma timers_invoke env cb response error :
  stable same_timers (invoke env cb response error).
Proof.
  unfold invoke, _start_authentication, _finish_authentication,
    clear_deferred, message_query.
  repeat (timers_step || apply timers_send).
Qed.

Lemma timers_close env : stable same_timers (close env).
Proof.
  unfold close, _close, notify_closed, stream_call.
  repeat (timers_step || apply timers_invoke).
Qed.

(** X18: only [__connect] and [_on_connect] ever talk to the timer.  A
    send on a live connection, a header, a body, a close from either side
    and the timeout handler itself add no timer and remove none, whatever
    their outcome: a request is never given a deadline of its own, and a
    reply never cancels the timer that is armed. *)
Theorem requests_never_touch_timers (env : Env) (w : World) (message : Message)
    (cb : option Callback) (header body : bytes) :
  timer_calls (trace (after (_parse_header env header) w)) = timer_calls (trace w)
  /\ timer_calls (trace (after (_parse_response env body) w))
     = timer_calls (trace w)
  /\ timer_calls (trace (after (_socket_close env) w)) = timer_calls (trace w)
  /\ timer_calls (trace (after (close env) w)) = timer_calls (trace w)
  /\ timer_calls (trace (after (_on_timeout env) w)) = timer_calls (trace w)
  /\ (alive (conn w) = true ->
      timer_calls (trace (after (send_message env message cb) w))
      = timer_calls (trace w)).
Proof.
  unfold after. repeat apply conj.
  - revert w. change (stable same_timers (_parse_header env header)).
    unfold _parse_header, struct_unpack, stream_call. repeat timers_step.
  - revert w. change (stable same_timers (_parse_response env body)).
    unfold _parse_response. repeat (timers_step || apply timers_invoke).
  - revert w. change (stable same_timers (_socket_close env)).
    unfold _socket_close, notify_closed.
    repeat (timers_step || apply timers_invoke).
  - exact (timers_close env w).
  - revert w. change (stable same_timers (_on_timeout env)).
    unfold _on_timeout. repeat (timers_step || apply timers_close).
  - intro Ha. unfold send_message. unfold bind at 1. unfold get at 1.
    destruct (callback (conn w)); [reflexivity|].
    rewrite Ha. cbn [negb]. unfold bind at 1. unfold ret at 1.
    revert w Ha. intros w _.
    match goal with
    | |- timer_calls (trace (snd (?m w))) = _ =>
        change (same_timers w (snd (m w))); revert w;
        change (stable same_timers m)
    end.
    unfold _get_nonce, message_query.
    repeat (timers_step || apply timers_send).
Qed.

Lemma requests_never_touch_timers_witness :
  alive (conn fresh_world) = true
  /\ timer_calls (trace fresh_world) = 1%nat
  /\ timer_calls (trace (after (send_message sample_env find_message
                                  (Some (UserCallback 1))) fresh_world))
     = timer_calls (trace fresh_world).
Proof.
  assert (Ha : alive (conn fresh_world) = true) by computed.
  split; [exact Ha|]. split; [computed|].
  destruct (requests_never_touch_timers sample_env fresh_world find_message
              (Some (UserCallback 1)) [] [])
    as (_ & _ & _ & _ & _ & H).
  exact (H Ha).
Defined.

(** X19: the glib backends get no timeout.  Whatever [__connect] does on a
    connection whose backend is not tornado, and however it ends, it adds
    no timer and leaves the stored timer handle as it was. *)
Theorem glib_connect_arms_no_timer (env : Env) (w : World) :
  is_tornado (backend_class (conn w)) = false ->
  timer_calls (trace (after (__connect env) w)) = timer_calls (trace w)
  /\ timeout (conn (after (__connect env) w)) = timeout (conn w).
Proof.
  intro T. unfold after, __connect. step.
  destruct (io_fault env (trace w ++ [EvSocket])) as [x|]; step.
  - destruct (is_socket_error x); step;
      rewrite timer_calls_app; cbn [timer_calls]; split; (reflexivity || lia).
  - use T.
    match goal with
    | |- context [io_fault env ?t] => destruct (io_fault env t) as [x|]
    end; step; try destruct (is_socket_error x); step;
    try destruct (has_credentials _); step;
    rewrite !timer_calls_app; cbn [timer_calls]; split; (reflexivity || lia).
Qed.

Lemma glib_connect_arms_no_timer_witness :
  is_tornado (backend_class (conn glib_world)) = false
  /\ min_timeout (conn glib_world) = 20
  /\ timer_calls (trace (after (__connect sample_env) glib_world))
     = timer_calls (trace glib_world)
  /\ timeout (conn (after (__connect sample_env) glib_world))
     = timeout (conn glib_world).
Proof.
  do 2 (split; [computed|]).
  apply (glib_connect_arms_no_timer sample_env glib_world). computed.
Defined.

(** X20: with the tornado backend and both timeouts set, the timer armed by
    [__connect] is removed by [_on_connect] before the request timer is
    armed, so one timer is outstanding at a time; and the deadline of the
    request timer is counted from the moment the connect started, not from
    the connect notification nor from any later request. *)
Theorem connect_timer_is_replaced (env : Env) (w : World) :
  (forall tr, io_fault env tr = None) ->
  is_tornado (backend_class (conn w)) = true ->
  min_timeout (conn w) <> 0 ->
  request_timeout (conn w) <> 0 ->
  let w1 := connected env w in
  let first_timer := new_handle env (trace w ++ [EvSocket] ++ [EvRegisterStream]) in
  timeout (conn w1) = Some first_timer
  /\ (__connect env ;; _on_connect env) w
     = (Ok tt,
        mkWorld
          (set_timeout
             (Some (new_handle env (trace w1 ++ [EvRemoveTimeout first_timer])))
             (conn w1))
          (trace w1
           ++ [EvRemoveTimeout first_timer;
               EvAddTimeout (time_time env (trace w)
                             + request_timeout (conn w))])).
Proof.
  intros quiet T Hmin Hreq w1 first_timer. subst w1 first_timer.
  apply Z.eqb_neq in Hmin. apply Z.eqb_neq in Hreq.
  assert (E : timeout (conn (connected env w))
              = Some (new_handle env (trace w ++ [EvSocket] ++ [EvRegisterStream]))).
  { unfold connected. rewrite T, Hmin. cbn [negb]. fields.
    rewrite <- app_assoc. reflexivity. }
  split; [exact E|].
  assert (St : stream (conn (connected env w))
               = Some (new_handle env (trace w ++ [EvSocket]))).
  { unfold connected. rewrite T. reflexivity. }
  assert (R : request_timeout (conn (connected env w)) = request_timeout (conn w)).
  { unfold connected. rewrite T. reflexivity. }
  assert (S0 : start_time (conn (connected env w)) = time_time env (trace w)).
  { unfold connected. rewrite T. reflexivity. }
  unfold bind at 1. rewrite (connect_quiet env w quiet).
  unfold _on_connect. step. rewrite E. step. rewrite St. step.
  rewrite R, Hreq. step. rewrite St. step. rewrite S0.
  rewrite <- !app_assoc. reflexivity.
Qed.

Lemma connect_timer_is_replaced_witness :
  is_tornado (backend_class (conn plain_closed)) = true
  /\ min_timeout (conn plain_closed) <> 0
  /\ request_timeout (conn plain_closed) <> 0
  /\ timeout (conn (connected sample_env plain_closed))
     = Some (new_handle sample_env
               (trace plain_closed ++ [EvSocket] ++ [EvRegisterStream])).
Proof.
  assert (T : is_tornado (backend_class (conn plain_closed)) = true) by computed.
  assert (Hmin : min_timeout (conn plain_closed) <> 0)
    by (vm_compute; discriminate).
  assert (Hreq : request_timeout (conn plain_closed) <> 0)
    by (vm_compute; discriminate).
  do 3 (split; [assumption|]).
  exact (proj1 (connect_timer_is_replaced sample_env plain_closed
                  (fun _ => eq_refl) T Hmin Hreq)).
Defined.

(** X21: [close()] with nothing or a caller's completion pending.  The
    completion, if any, is called once with
    [InterfaceError('connection closed')]; the slot is cleared and the
    connection marked not alive; then the stream is closed and only after
    that is the connection re-cached.  If closing the stream raises, the
    exception leaves [close] with the connection already cleared and marked
    not alive, but not re-cached. *)
Theorem close_notifies_closes_recaches (env : Env) (w : World) (h : nat) :
  stream (conn w) = Some h ->
  match callback (conn w) with
  | Some (UserCallback _) | None => True
  | _ => False
  end ->
  let notified := match callback (conn w) with
                  | Some cb => [EvInvoke cb None (Some connection_closed)]
                  | None => []
                  end in
  let c := set_alive false (set_callback None (conn w)) in
  close env w
  = match io_fault env (trace w ++ notified ++ [EvStreamClose]) with
    | None => (Ok tt, mkWorld c (trace w ++ notified ++ [EvStreamClose; EvCache]))
    | Some x => (Raise x, mkWorld c (trace w ++ notified ++ [EvStreamClose]))
    end.
Proof.
  intros Hs Hcb notified c. subst notified c.
  unfold close, _close, notify_closed. step.
  destruct (callback (conn w)) as [[k| |]|]; try contradiction.
  - unfold invoke. step. use Hs. rewrite <- !app_assoc. cbn [app].
    destruct (io_fault env _); step; rewrite <- ?app_assoc; reflexivity.
  - step. use Hs. cbn [app].
    destruct (io_fault env _); step; rewrite <- ?app_assoc; reflexivity.
Qed.

Lemma close_notifies_closes_recaches_witness :
  stream (conn plain_pending) = Some 1%nat
  /\ callback (conn plain_pending) = Some (UserCallback 1)
  /\ close sample_env plain_pending
     = match io_fault sample_env
               (trace plain_pending
                ++ match callback (conn plain_pending) with
                   | Some cb => [EvInvoke cb None (Some connection_closed)]
                   | None => []
                   end
                ++ [EvStreamClose]) with
       | None =>
           (Ok tt,
            mkWorld (set_alive false (set_callback None (conn plain_pending)))
              (trace plain_pending
               ++ match callback (conn plain_pending) with
                  | Some cb => [EvInvoke cb None (Some connection_closed)]
                  | None => []
                  end
               ++ [EvStreamClose; EvCache]))
       | Some x =>
           (Raise x,
            mkWorld (set_alive false (set_callback None (conn plain_pending)))
              (trace plain_pending
               ++ match callback (conn plain_pending) with
                  | Some cb => [EvInvoke cb None (Some connection_closed)]
                  | None => []
                  end
               ++ [EvStreamClose]))
       end.
Proof.
  do 2 (split; [computed|]).
  apply (close_notifies_closes_recaches sample_env plain_pending 1%nat).
  - computed.
  - vm_compute. exact I.
Defined.

(** *** The request id of a pending completion *)

Ltac split_cases :=
  repeat (step;
          match goal with
          | |- context [match ?x with _ => _ end] =>
              lazymatch x with
              | context [match _ with _ => _ end] => fail
              | _ => destruct x eqn:?
              end
          end);
  step.

Lemma id_kept_refl w : id_kept w w.
Proof. intro H. exact H. Qed.

Lemma id_kept_trans a b c : id_kept a b -> id_kept b c -> id_kept a c.
Proof. unfold id_kept. auto. Qed.

Lemma id_kept_modify f :
  (forall c, has_request_id c = true -> has_request_id (f c) = true) ->
  stable id_kept (modify f).
Proof. intros H w. exact (H (conn w)). Qed.

Lemma id_kept_emit e : stable id_kept (emit e).
Proof. intros w H. exact H. Qed.

Lemma id_kept_io env e : stable id_kept (io env e).
Proof. intros w H. unfold io. destruct (io_fault env _); exact H. Qed.

Ltac id_step :=
  match goal with
  | |- stable _ (bind _ _) => apply stable_bind; [exact id_kept_trans | | intro]
  | |- stable _ (try_except _ _ _) =>
      apply stable_try_except; [exact id_kept_trans | | intro]
  | |- stable _ (ret _) => apply stable_ret; exact id_kept_refl
  | |- stable _ (raise _) => apply stable_raise; exact id_kept_refl
  | |- stable _ get => apply stable_get; exact id_kept_refl
  | |- stable _ history => apply stable_history; exact id_kept_refl
  | |- stable _ (modify _) =>
      apply id_kept_modify; intros ? ?; first [assumption | reflexivity]
  | |- stable _ (emit _) => apply id_kept_emit
  | |- stable _ (io _ _) => apply id_kept_io
  | |- stable _ (match ?x with _ => _ end) => destruct x
  end.

Lemma id_kept_send env message : stable id_kept (_send_message env message).
Proof. unfold _send_message, stream_call. repeat id_step. Qed.

Lemma id_kept_invoke env cb response error :
  stable id_kept (invoke env cb response error).
Proof.
  unfold invoke, _start_authentication, _finish_authentication,
    clear_deferred, message_query.
  repeat (id_step || apply id_kept_send).
Qed.

Lemma id_kept_connect env : stable id_kept (__connect env).
Proof. unfold __connect, io_loop. repeat id_step. Qed.

Lemma id_kept_close env : stable id_kept (close env).
Proof.
  unfold close, _close, notify_closed, stream_call.
  repeat (id_step || apply id_kept_invoke).
Qed.

(** [__connect] does not touch the completion. *)
Lemma connect_keeps_callback env w :
  callback (conn (snd (__connect env w))) = callback (conn w).
Proof. unfold __connect. split_cases; reflexivity. Qed.

(** A message handed to [_send_message] leaves the request id assigned,
    however the call ends. *)
Lemma send_assigns_request_id env w message :
  has_request_id (conn (snd (_send_message env (Some message) w))) = true.
Proof.
  destruct message as [rid payload]. unfold _send_message.
  split_cases; reflexivity.
Qed.

(** Every entry point keeps [pending_has_id], and a new connection has it:
    in every state the class can reach, a pending completion finds
    [self.__request_id] assigned. *)
Lemma pending_has_id_kept env w message cb header body :
  pending_has_id (conn w) ->
  pending_has_id (conn (after (send_message env message cb) w))
  /\ pending_has_id (conn (after (_parse_header env header) w))
  /\ pending_has_id (conn (after (_parse_response env body) w))
  /\ pending_has_id (conn (after (_socket_close env) w))
  /\ pending_has_id (conn (after (close env) w))
  /\ pending_has_id (conn (after (_on_timeout env) w))
  /\ pending_has_id (conn (after (_on_connect env) w))
  /\ pending_has_id (conn (after (__connect env) w)).
Proof.
  unfold pending_has_id, after. intro H.
  destruct (has_request_id (conn w)) eqn:Hid.
  - (* the id exists already: it still does afterwards *)
    repeat apply conj; right.
    + clear H. revert w Hid. change (stable id_kept (send_message env message cb)).
      unfold send_message, _get_nonce, message_query.
      repeat (id_step || apply id_kept_send || apply id_kept_connect).
    + clear H. revert w Hid. change (stable id_kept (_parse_header env header)).
      unfold _parse_header, struct_unpack, read_request_id, stream_call.
      repeat id_step.
    + clear H. revert w Hid. change (stable id_kept (_parse_response env body)).
      unfold _parse_response, read_request_id.
      repeat (id_step || apply id_kept_invoke).
    + clear H. revert w Hid. change (stable id_kept (_socket_close env)).
      unfold _socket_close, notify_closed.
      repeat (id_step || apply id_kept_invoke).
    + exact (id_kept_close env w Hid).
    + clear H. revert w Hid. change (stable id_kept (_on_timeout env)).
      unfold _on_timeout. repeat (id_step || apply id_kept_close).
    + clear H. revert w Hid. change (stable id_kept (_on_connect env)).
      unfold _on_connect, io_loop. repeat id_step.
    + exact (id_kept_connect env w Hid).
  - (* no id yet: then nothing is pending *)
    destruct H as [H|H]; [|discriminate H].
    repeat apply conj.
    + unfold send_message. step. rewrite H. step.
      destruct (alive (conn w)); cbn [negb]; step.
      * destruct (authenticate (conn w)); unfold _get_nonce; step;
          rewrite ?H; step; right; apply send_assigns_request_id.
      * destruct (autoreconnect (conn w)); step; [|left; exact H].
        pose proof (connect_keeps_callback env w) as K.
        destruct (__connect env w) as [[[]|e] w1]; cbn [snd] in K; step;
          [|left; congruence].
        destruct (authenticate (conn w1)); unfold _get_nonce; step;
          rewrite ?K, ?H; step; right; apply send_assigns_request_id.
    + left. unfold _parse_header. split_cases; exact H.
    + left. unfold _parse_response. step. rewrite H. exact H.
    + left. unfold _socket_close, notify_closed. step. rewrite H. reflexivity.
    + left. unfold close, _close, notify_closed. step. rewrite H.
      split_cases; reflexivity.
    + left. unfold _on_timeout, close, _close, notify_closed. step. rewrite H.
      split_cases; reflexivity.
    + left. unfold _on_connect. split_cases; exact H.
    + left. rewrite connect_keeps_callback. exact H.
Qed.

Lemma new_connection_pending_has_id env host' port' connect_timeout
    request_timeout' dbuser' dbpass' autoreconnect' dbname' backend :
  pending_has_id
    (conn (snd (__init__ env host' port' connect_timeout request_timeout'
                  dbuser' dbpass' autoreconnect' dbname' backend))).
Proof.
  left. unfold __init__. rewrite connect_keeps_callback. reflexivity.
Qed.
